(** * Cookie Clicker ROI advisor: the estimation and ranking pipeline

    A shallow embedding of [Constants.js], [Validators.js], [EconomicModel.js],
    [StrategyEngine.js] and [relaxed-advisor.js], and the properties of the
    specification that concern them.

    JavaScript numbers are IEEE 754 binary64 values: they are modelled by
    Rocq's primitive floats, whose operations are the same correctly rounded
    ones.  Strings are sequences of code units below 256. *)

From Stdlib Require Import ZArith Floats Bool List String Ascii Lia Permutation Sorted.
Import ListNotations.

#[local] Set Warnings "-inexact-float,-register-all".
#[local] Open Scope string_scope.
#[local] Open Scope list_scope.
#[local] Open Scope float_scope.

(** ** JavaScript strings *)

Module JsString.

Definition code (c : ascii) : nat := nat_of_ascii c.

(** One code unit of [String.prototype.toLowerCase]: A-Z, and the Latin-1
    capitals (all of 0xC0-0xDE but the multiplication sign 0xD7). *)
Definition lowerUnit (c : ascii) : ascii :=
  let n := code c in
  if ((65 <=? n) && (n <=? 90))%nat
     || ((192 <=? n) && (n <=? 222) && negb (n =? 215))%nat
  then ascii_of_nat (n + 32) else c.

Fixpoint toLowerCase (s : string) : string :=
  match s with
  | EmptyString => EmptyString
  | String c s' => String (lowerUnit c) (toLowerCase s')
  end.

(** [s.substring(0, n)] *)
Fixpoint prefix (n : nat) (s : string) : string :=
  match n, s with
  | S n', String c s' => String c (prefix n' s')
  | _, _ => EmptyString
  end.

(** [s.includes(t)] *)
Fixpoint includes (s t : string) : bool :=
  String.prefix t s ||
  match s with
  | EmptyString => false
  | String _ s' => includes s' t
  end.

(** A string is truthy when it is not empty. *)
Definition truthy (s : string) : bool :=
  match s with EmptyString => false | _ => true end.

(** [a || b] on strings. *)
Definition or (a b : string) : string := if truthy a then a else b.

End JsString.

(** ** Regular expressions

    The fragment of the RegExp language that [Constants.UPGRADE_PATTERNS]
    uses, with the backtracking semantics of ECMAScript: alternatives are
    tried left to right, quantifiers are greedy, and the match is looked for
    at the leftmost start position. *)

Module RegExp.

Inductive atom :=
| Chr (c : ascii)   (* a literal character *)
| Digit             (* \d *)
| Space.            (* \s *)

Inductive regex :=
| Eps               (* the empty pattern *)
| Atom (a : atom)
| Seq (r1 r2 : regex)
| Alt (r1 r2 : regex)
| Plus (a : atom)   (* a+ *)
| Star (a : atom)   (* a* *)
| Opt (r : regex)   (* r? *)
| Group (r : regex) (* (r), the capture group *).

Record t := { source : regex; ignoreCase : bool }.

Definition isDigit (c : ascii) : bool :=
  let n := JsString.code c in ((48 <=? n) && (n <=? 57))%nat.

(** The white space of [\s] among the code units below 256: TAB, LF, VT,
    FF, CR, SP and NBSP. *)
Definition isSpace (c : ascii) : bool :=
  let n := JsString.code c in
  (((9 <=? n) && (n <=? 13)) || (n =? 32) || (n =? 160))%nat.

Definition accepts (icase : bool) (a : atom) (c : ascii) : bool :=
  match a with
  | Chr d =>
      if icase then Ascii.eqb (JsString.lowerUnit c) (JsString.lowerUnit d)
      else Ascii.eqb c d
  | Digit => isDigit c
  | Space => isSpace c
  end.

Section Matcher.
Context {R : Type}.
Variable icase : bool.

(** Greedy repetition of one atom: the longest run first, then shorter
    ones, until the continuation succeeds. *)
Fixpoint repeat (a : atom) (s : string) (k : string -> option R) : option R :=
  match s with
  | String c s' =>
      if accepts icase a c then
        match repeat a s' k with
        | Some r => Some r
        | None => k s
        end
      else k s
  | EmptyString => k s
  end.

(** [run r s cap k]: match [r] at the head of [s], then continue with
    [k] on what is left of the input and on the capture. *)
Fixpoint run (r : regex) (s : string) (cap : option string)
         (k : string -> option string -> option R) : option R :=
  match r with
  | Eps => k s cap
  | Atom a =>
      match s with
      | String c s' => if accepts icase a c then k s' cap else None
      | EmptyString => None
      end
  | Seq r1 r2 => run r1 s cap (fun s1 cap1 => run r2 s1 cap1 k)
  | Alt r1 r2 =>
      match run r1 s cap k with
      | Some x => Some x
      | None => run r2 s cap k
      end
  | Plus a =>
      match s with
      | String c s' =>
          if accepts icase a c then repeat a s' (fun s1 => k s1 cap) else None
      | EmptyString => None
      end
  | Star a => repeat a s (fun s1 => k s1 cap)
  | Opt r1 =>
      match run r1 s cap k with
      | Some x => Some x
      | None => k s cap
      end
  | Group r1 =>
      run r1 s cap
          (fun s1 _ => k s1 (Some (JsString.prefix (String.length s - String.length s1) s)))
  end.
End Matcher.

(** The array [String.prototype.match] returns for a regular expression
    without the [g] flag: the matched text and the capture. *)
Record MatchResult := { matched : string; group1 : option string }.

Definition matchAt (re : t) (s : string) : option MatchResult :=
  run (ignoreCase re) (source re) s None
      (fun s1 cap =>
         Some {| matched := JsString.prefix (String.length s - String.length s1) s;
                 group1 := cap |}).

(** [s.match(re)]: [None] is [null]. *)
Fixpoint exec (re : t) (s : string) : option MatchResult :=
  match matchAt re s with
  | Some m => Some m
  | None =>
      match s with
      | String _ s' => exec re s'
      | EmptyString => None
      end
  end.

(** The capture of a match, [m[1]]; the group takes part in every match
    of the patterns of this program. *)
Definition capture (m : MatchResult) : string :=
  match group1 m with
  | Some s => s
  | None => EmptyString
  end.

(** The literal text [w], character by character. *)
Fixpoint word (w : string) : regex :=
  match w with
  | EmptyString => Eps
  | String c w' => Seq (Atom (Chr c)) (word w')
  end.

(** [r1 r2 ... rn] *)
Fixpoint cat (rs : list regex) : regex :=
  match rs with
  | [] => Eps
  | r :: rs' => Seq r (cat rs')
  end.

(** [w1|w2|...] *)
Fixpoint oneOf (w : string) (ws : list string) : regex :=
  match ws with
  | [] => word w
  | w' :: ws' => Alt (word w) (oneOf w' ws')
  end.

End RegExp.

(** ** parseFloat *)

Module Number.

Definition digitValue (c : ascii) : Z := Z.of_nat (JsString.code c) - 48.

(** The leading decimal digits of [s], read as a number continuing [acc],
    how many there are, and the rest of [s]. *)
Fixpoint digits (s : string) (acc : Z) (n : nat) : Z * nat * string :=
  match s with
  | String c s' =>
      if RegExp.isDigit c then digits s' (10 * acc + digitValue c)%Z (S n)
      else (acc, n, s)
  | EmptyString => (acc, n, s)
  end.

(** The binary64 value nearest to [m / 10^k] (ties to even), for [m >= 0]. *)
Definition ofDecimal (m : Z) (k : nat) : float :=
  match m with
  | Z0 => 0
  | Zpos _ =>
      let '(q, e, l) := SFdiv_core_binary prec emax m 0 (10 ^ Z.of_nat k) 0 in
      SF2Prim (binary_round_aux prec emax false q e l)
  | Zneg _ => nan
  end.

(** [parseFloat] on text that starts with an unsigned decimal literal
    without exponent (digits, then optionally a point and digits), which is
    all the patterns capture; [NaN] when the text does not start with a
    digit. *)
Definition parseFloat (s : string) : float :=
  let '(m, n, rest) := digits s 0%Z 0%nat in
  match n with
  | O => nan
  | S _ =>
      match rest with
      | String "." rest' =>
          let '(m', k, _) := digits rest' m 0%nat in ofDecimal m' k
      | _ => ofDecimal m 0
      end
  end.

End Number.

(** ** Binary64 numbers

    What the proofs need to speak of the order of binary64 numbers: the
    comparisons of the language are those of IEEE 754, which [FloatAxioms]
    specifies on [spec_float]. *)

Module Binary64.

(** A finite number that is not zero, or an infinity, of sign [s]. *)
Definition signed_nonzero (s : bool) (x : spec_float) : Prop :=
  match x with
  | S754_finite s' _ _ | S754_infinity s' => s' = s
  | _ => False
  end.

Definition is_number (x : spec_float) : Prop :=
  match x with
  | S754_nan => False
  | _ => True
  end.

(** An integer that orders the valid numbers as [SFcompare] does: the
    exponent, then the mantissa, which is below [2^53]. *)
Definition key (x : spec_float) : Z :=
  match x with
  | S754_zero _ | S754_nan => 0
  | S754_infinity s => cond_Zopp s (3000 * 2 ^ 53)
  | S754_finite s m e => cond_Zopp s ((e + 1075) * 2 ^ 53 + Zpos m)
  end%Z.

Definition fkey (x : float) : Z := key (Prim2SF x).

(** The number one. *)
Definition SFone : spec_float := S754_finite false 4503599627370496 (-52).

End Binary64.

(** ** Constants.js *)

Module Constants.

(** Maximum reasonable ROI time, in seconds: one hour. *)
Definition MAX_REASONABLE_ROI : float := 3600.

(** Minimum meaningful CPS delta. *)
Definition MIN_VALID_DELTA_CPS : float := 0.001.

Module UPGRADE_PATTERNS.
Import RegExp.

(** [/(\d+)x\s+as\s+efficient/i] *)
Definition MULTIPLIER : RegExp.t :=
  {| source := cat [Group (Plus Digit); Atom (Chr "x"); Plus Space;
                    word "as"; Plus Space; word "efficient"];
     ignoreCase := true |}.

(** [/(\d+)%/] *)
Definition PERCENTAGE_BOOST : RegExp.t :=
  {| source := cat [Group (Plus Digit); Atom (Chr "%")];
     ignoreCase := false |}.

(** The flat bonus: a plus sign, the group (digits, an optional point,
    any number of digits), white space, cookie or cookies, white space,
    per; case-insensitive. *)
Definition FLAT_COOKIE_BONUS : RegExp.t :=
  {| source := cat [Atom (Chr "+");
                    Group (cat [Plus Digit; Opt (Atom (Chr ".")); Star Digit]);
                    Plus Space; word "cookie"; Opt (Atom (Chr "s"));
                    Plus Space; word "per"];
     ignoreCase := true |}.

(** [/(cursor|grandma|farm|...|idleverse)/i] *)
Definition BUILDING_REFERENCE : RegExp.t :=
  {| source :=
       Group (oneOf "cursor"
                ["grandma"; "farm"; "mine"; "factory"; "bank"; "temple";
                 "wizard tower"; "shipment"; "alchemy lab"; "portal";
                 "time machine"; "antimatter condenser"; "prism";
                 "chancemaker"; "fractal engine"; "javascript console";
                 "idleverse"]);
     ignoreCase := true |}.
End UPGRADE_PATTERNS.

Module UPGRADE_ESTIMATES.
Definition CONSERVATIVE_BOOST : float := 0.02.
Definition CLICK_UPGRADE_WEIGHT : float := 0.01.
Definition SYNERGY_MULTIPLIER : float := 0.5.
End UPGRADE_ESTIMATES.

Definition TOP_ALTERNATIVES_COUNT : nat := 5.

(** The standard building names, in the order of the game. *)
Definition BUILDINGS : list string :=
  ["Cursor"; "Grandma"; "Farm"; "Mine"; "Factory"; "Bank"; "Temple";
   "Wizard tower"; "Shipment"; "Alchemy lab"; "Portal"; "Time machine";
   "Antimatter condenser"; "Prism"; "Chancemaker"; "Fractal engine";
   "Javascript console"; "Idleverse"].

End Constants.

(** ** The normalized game state and the candidates *)

Module Building.
Record t := {
  id : string;
  name : string;
  owned : float;
  cost : float;
  baseCPS : float;   (* base CPS of one building *)
  totalCPS : float   (* CPS of all the owned buildings of this type *)
}.
End Building.

Module Upgrade.
Record t := {
  id : string;
  name : string;
  cost : float;
  description : string;
  descriptionDetail : string
}.
End Upgrade.

Record GameState := {
  cookies : float;
  cookiesPerSecond : float;
  buildings : list Building.t;
  upgrades : list Upgrade.t
}.

Inductive CandidateType := building | upgrade.

Module Candidate.
(** The result of an ROI calculation.  [currentOwned] is present on
    buildings only; the display name, which no computation reads, is left
    out. *)
Record t := {
  id : string;
  type : CandidateType;
  name : string;
  cost : float;
  deltaCPS : float;
  roiTime : float;
  currentOwned : option float
}.
End Candidate.

(** ** EconomicModel.js *)

Module EconomicModel.
Import Constants.

(** ROI time with safety checks. *)
Definition _calculateROITime (cost deltaCPS : float) : float :=
  if deltaCPS <? MIN_VALID_DELTA_CPS then infinity
  else
    let roiTime := cost / deltaCPS in
    if negb (is_finite roiTime) || (roiTime <? 0) then infinity
    else roiTime.

(** ROI of one more building; [None] is [null]. *)
Definition calculateBuildingROI (b : Building.t) : option Candidate.t :=
  let cost := Building.cost b in
  let baseCPS := Building.baseCPS b in
  let owned := Building.owned b in
  let totalCPS := Building.totalCPS b in
  if (cost <=? 0) || (baseCPS <? 0) then None
  else
    let multiplier :=
      if (0 <? owned) && (0 <? totalCPS) then
        let baseTotal := baseCPS * owned in
        if 0 <? baseTotal then totalCPS / baseTotal else 1
      else 1 in
    let deltaCPS := baseCPS * multiplier in
    let roiTime := _calculateROITime cost deltaCPS in
    Some {| Candidate.id := Building.id b;
            Candidate.type := building;
            Candidate.name := Building.name b;
            Candidate.cost := cost;
            Candidate.deltaCPS := deltaCPS;
            Candidate.roiTime := roiTime;
            Candidate.currentOwned := Some owned |}.

(** The building an upgrade affects, from its (lowercase) description. *)
Definition _findAffectedBuilding (gameState : GameState) (description : string)
  : option Building.t :=
  match RegExp.exec UPGRADE_PATTERNS.BUILDING_REFERENCE description with
  | None => None
  | Some buildingMatch =>
      let buildingName := RegExp.capture buildingMatch in
      find (fun b =>
              String.eqb (JsString.toLowerCase (Building.name b))
                         (JsString.toLowerCase buildingName))
           (buildings gameState)
  end.

(** The CPS increase of an upgrade, estimated from its description.  Each
    [match] is one [if] of the source; a branch that gives [None] falls
    through to the next statement. *)
Definition _estimateUpgradeCPS (gameState : GameState) (u : Upgrade.t)
           (description : string) : float :=
  let desc := JsString.toLowerCase description in
  let currentCPS := cookiesPerSecond gameState in
  (* Pattern 1: multiplier upgrades *)
  match
    match RegExp.exec UPGRADE_PATTERNS.MULTIPLIER desc with
    | Some multiplierMatch =>
        let multiplier := Number.parseFloat (RegExp.capture multiplierMatch) in
        match _findAffectedBuilding gameState desc with
        | Some affectedBuilding =>
            Some (Building.totalCPS affectedBuilding * (multiplier - 1))
        | None => None
        end
    | None => None
    end
  with
  | Some estimate => estimate
  | None =>
  (* Pattern 2: percentage boost *)
  match RegExp.exec UPGRADE_PATTERNS.PERCENTAGE_BOOST desc with
  | Some percentMatch =>
      let percent := Number.parseFloat (RegExp.capture percentMatch) in
      match _findAffectedBuilding gameState desc with
      | Some affectedBuilding => Building.totalCPS affectedBuilding * (percent / 100)
      | None => currentCPS * (percent / 100)
      end
  | None =>
  (* Pattern 3: flat bonus *)
  match RegExp.exec UPGRADE_PATTERNS.FLAT_COOKIE_BONUS desc with
  | Some flatMatch =>
      let bonusPerClick := Number.parseFloat (RegExp.capture flatMatch) in
      let estimatedClicksPerSec := 1.5 in
      bonusPerClick * estimatedClicksPerSec
  | None =>
  (* Pattern 4: building-specific upgrade *)
  match _findAffectedBuilding gameState desc with
  | Some affectedBuilding =>
      Building.totalCPS affectedBuilding * UPGRADE_ESTIMATES.SYNERGY_MULTIPLIER
  | None =>
  (* Pattern 5: click upgrade *)
  if JsString.includes desc "click" || JsString.includes desc "cursor" then
    currentCPS * UPGRADE_ESTIMATES.CLICK_UPGRADE_WEIGHT
  else
    (* Fallback: unknown upgrade type *)
    currentCPS * UPGRADE_ESTIMATES.CONSERVATIVE_BOOST
  end end end end.

(** ROI of an upgrade; [None] is [null]. *)
Definition calculateUpgradeROI (gameState : GameState) (u : Upgrade.t)
  : option Candidate.t :=
  let cost := Upgrade.cost u in
  let description :=
    JsString.or (JsString.or (Upgrade.descriptionDetail u) (Upgrade.description u))
                EmptyString in
  if cost <=? 0 then None
  else
    let deltaCPS := _estimateUpgradeCPS gameState u description in
    let roiTime := _calculateROITime cost deltaCPS in
    Some {| Candidate.id := Upgrade.id u;
            Candidate.type := upgrade;
            Candidate.name := Upgrade.name u;
            Candidate.cost := cost;
            Candidate.deltaCPS := deltaCPS;
            Candidate.roiTime := roiTime;
            Candidate.currentOwned := None |}.

(** [candidates.push(roi)] for every [roi] that is not [null], in order. *)
Fixpoint pushAll {A} (f : A -> option Candidate.t) (l : list A) : list Candidate.t :=
  match l with
  | [] => []
  | x :: l' =>
      match f x with
      | Some roi => roi :: pushAll f l'
      | None => pushAll f l'
      end
  end.

(** All the purchase candidates: the buildings, then the upgrades. *)
Definition getAllCandidates (gameState : GameState) : list Candidate.t :=
  pushAll calculateBuildingROI (buildings gameState)
  ++ pushAll (calculateUpgradeROI gameState) (upgrades gameState).

End EconomicModel.

(** ** JavaScript values and exceptions

    The validators accept any value.  Objects are plain data: a kind, and
    the properties that can be read from them (their own and the inherited
    ones alike), in a list. *)

Module Js.

Inductive error :=
| TypeError
| Error (message : string).

Inductive result (A : Type) :=
| Ok (a : A)
| Throw (e : error).
Arguments Ok {A} a.
Arguments Throw {A} e.

Definition bind {A B} (r : result A) (f : A -> result B) : result B :=
  match r with
  | Ok a => f a
  | Throw e => Throw e
  end.

Inductive kind := PlainObject | ArrayObject | FunctionObject.

Inductive value :=
| Undefined
| Null
| Boolean (b : bool)
| Num (n : float)
| Str (s : string)
| Object (k : kind) (props : list (string * value)).

Definition typeof (v : value) : string :=
  match v with
  | Undefined => "undefined"
  | Null => "object"
  | Boolean _ => "boolean"
  | Num _ => "number"
  | Str _ => "string"
  | Object FunctionObject _ => "function"
  | Object _ _ => "object"
  end.

(** ToBoolean *)
Definition truthy (v : value) : bool :=
  match v with
  | Undefined | Null => false
  | Boolean b => b
  | Num n => negb ((n =? 0) || is_nan n)
  | Str s => JsString.truthy s
  | Object _ _ => true
  end.

Fixpoint lookup (p : string) (props : list (string * value)) : option value :=
  match props with
  | [] => None
  | (q, v) :: props' => if String.eqb p q then Some v else lookup p props'
  end.

Definition ofNat (n : nat) : float :=
  SF2Prim (binary_normalize prec emax (Z.of_nat n) 0 false).

(** [v.p]: reading a property of [undefined] or [null] throws; a
    primitive has no property of the names this program reads, but for the
    length of a string. *)
Definition get (v : value) (p : string) : result value :=
  match v with
  | Undefined | Null => Throw TypeError
  | Boolean _ | Num _ => Ok Undefined
  | Str s => if String.eqb p "length" then Ok (Num (ofNat (String.length s))) else Ok Undefined
  | Object _ props =>
      match lookup p props with
      | Some x => Ok x
      | None => Ok Undefined
      end
  end.

(** [p in v]: throws unless [v] is an object. *)
Definition hasProperty (p : string) (v : value) : result bool :=
  match v with
  | Object _ props =>
      match lookup p props with
      | Some _ => Ok true
      | None => Ok false
      end
  | _ => Throw TypeError
  end.

Definition isArray (v : value) : bool :=
  match v with
  | Object ArrayObject _ => true
  | _ => false
  end.

(** The number a value of type number is; not read on other values. *)
Definition number (v : value) : float :=
  match v with
  | Num n => n
  | _ => nan
  end.

(** [v === s] for a string [s] *)
Definition isString (v : value) (s : string) : bool :=
  match v with
  | Str s' => String.eqb s' s
  | _ => false
  end.

Definition typeofIs (v : value) (t : string) : bool := String.eqb (typeof v) t.

End Js.

Notation "x <- r ;; k" := (Js.bind r (fun x => k))
  (at level 61, r at next level, right associativity).

(** ** Validators.js *)

Module Validators.
Import Js.

Definition isValidGameObject (game : value) : result bool :=
  if negb (truthy game) then Ok false else
  cookies <- get game "cookies" ;;
  if negb (typeofIs cookies "number") then Ok false else
  cookiesPs <- get game "cookiesPs" ;;
  if negb (typeofIs cookiesPs "number") then Ok false else
  objects <- get game "Objects" ;;
  if negb (truthy objects) || negb (typeofIs objects "object") then Ok false else
  upgradesInStore <- get game "UpgradesInStore" ;;
  if negb (truthy upgradesInStore) || negb (isArray upgradesInStore) then Ok false else
  Ok true.

Definition isValidBuilding (b : value) : result bool :=
  if negb (truthy b) then Ok false else
  name <- get b "name" ;;
  nameIsEmpty <-
    (if negb (typeofIs name "string") then Ok true
     else len <- get name "length" ;; Ok (number len =? 0)) ;;
  if nameIsEmpty : bool then Ok false else
  amount <- get b "amount" ;;
  if negb (typeofIs amount "number") then Ok false else
  price <- get b "price" ;;
  if negb (typeofIs price "number") || (number price <? 0) then Ok false else
  cps <- get b "cps" ;;
  if negb (typeofIs cps "number") || (number cps <? 0) then Ok false else
  Ok true.

Definition isValidUpgrade (u : value) : result bool :=
  if negb (truthy u) then Ok false else
  name <- get u "name" ;;
  nameIsEmpty <-
    (if negb (typeofIs name "string") then Ok true
     else len <- get name "length" ;; Ok (number len =? 0)) ;;
  if nameIsEmpty : bool then Ok false else
  getPrice <- get u "getPrice" ;;
  basePrice <- (if negb (typeofIs getPrice "function") then get u "basePrice" else Ok Undefined) ;;
  if negb (typeofIs getPrice "function") && negb (typeofIs basePrice "number") then Ok false else
  Ok true.

Definition isValidROI (roiTime : value) : result bool :=
  if negb (typeofIs roiTime "number") then Ok false else
  if negb (is_finite (number roiTime)) then Ok false else
  if number roiTime <=? 0 then Ok false else
  Ok true.

Definition isValidDeltaCPS (deltaCPS : value) : result bool :=
  if negb (typeofIs deltaCPS "number") then Ok false else
  if negb (is_finite (number deltaCPS)) then Ok false else
  if number deltaCPS <=? 0 then Ok false else
  Ok true.

Definition isAffordable (cost cookies : value) : result bool :=
  if negb (typeofIs cost "number") || negb (typeofIs cookies "number") then Ok false else
  Ok (number cost <=? number cookies).

Definition isReasonablyAffordable (cost cookies : value) : result bool :=
  if negb (typeofIs cost "number") || negb (typeofIs cookies "number") then Ok false else
  Ok (number cost <=? number cookies * 10).

Definition isValidGameState (gameState : value) : result bool :=
  if negb (truthy gameState) then Ok false else
  cookies <- get gameState "cookies" ;;
  if negb (typeofIs cookies "number") then Ok false else
  cookiesPerSecond <- get gameState "cookiesPerSecond" ;;
  if negb (typeofIs cookiesPerSecond "number") then Ok false else
  buildings <- get gameState "buildings" ;;
  if negb (isArray buildings) then Ok false else
  upgrades <- get gameState "upgrades" ;;
  if negb (isArray upgrades) then Ok false else
  Ok true.

Definition requiredProps : list string :=
  ["id"; "type"; "name"; "cost"; "deltaCPS"; "roiTime"].

(** The loop over [requiredProps]: [false] at the first property that is
    not [in] the candidate. *)
Fixpoint hasAll (props : list string) (candidate : value) : result bool :=
  match props with
  | [] => Ok true
  | prop :: props' =>
      present <- hasProperty prop candidate ;;
      if negb present then Ok false else hasAll props' candidate
  end.

Definition isValidCandidate (candidate : value) : result bool :=
  if negb (truthy candidate) then Ok false else
  complete <- hasAll requiredProps candidate ;;
  if negb complete then Ok false else
  type <- get candidate "type" ;;
  if negb (isString type "building") && negb (isString type "upgrade") then Ok false else
  cost <- get candidate "cost" ;;
  if negb (typeofIs cost "number") || (number cost <=? 0) then Ok false else
  Ok true.

End Validators.

(** ** StrategyEngine.js and relaxed-advisor.js *)

(** The object an ROI calculation returns, as a value. *)
Definition candidateValue (c : Candidate.t) : Js.value :=
  Js.Object Js.PlainObject
    ([("id", Js.Str (Candidate.id c));
      ("type", Js.Str match Candidate.type c with
                      | building => "building"
                      | upgrade => "upgrade"
                      end);
      ("name", Js.Str (Candidate.name c));
      ("cost", Js.Num (Candidate.cost c));
      ("deltaCPS", Js.Num (Candidate.deltaCPS c));
      ("roiTime", Js.Num (Candidate.roiTime c))]
     ++ match Candidate.currentOwned c with
        | Some n => [("currentOwned", Js.Num n)]
        | None => [("isPermanent", Js.Boolean true)]
        end).

Module JsArray.
Import Js.

(** [l.filter(p)], for a predicate that may throw. *)
Fixpoint filter {A} (p : A -> result bool) (l : list A) : result (list A) :=
  match l with
  | [] => Ok []
  | x :: l' =>
      keep <- p x ;;
      rest <- filter p l' ;;
      Ok (if keep : bool then x :: rest else rest)
  end.

(** [l.sort(comparefn)].  ECMAScript asks for a stable sort, and leaves
    the order to the implementation only when the comparison function is
    not consistent.  The model is the stable insertion sort: [x] goes after
    the elements [y] with [comparefn(x, y) > 0]; a result that is [NaN]
    counts as zero. *)
Section Sort.
Context {A : Type}.
Variable comparefn : A -> A -> float.

Fixpoint insert (x : A) (l : list A) : list A :=
  match l with
  | [] => [x]
  | y :: l' => if 0 <? comparefn x y then y :: insert x l' else x :: l
  end.

Fixpoint sort (l : list A) : list A :=
  match l with
  | [] => []
  | x :: l' => insert x (sort l')
  end.
End Sort.

End JsArray.

Module GreedyStrategy.
Import Js.

Definition comparefn (a b : Candidate.t) : float :=
  (* Primary: ROI time (lower is better) *)
  if negb (Candidate.roiTime a =? Candidate.roiTime b) then
    Candidate.roiTime a - Candidate.roiTime b
  else
    (* Tiebreaker: higher absolute CPS gain *)
    Candidate.deltaCPS b - Candidate.deltaCPS a.

Definition evaluate (candidates : list Candidate.t) : result (list Candidate.t) :=
  (* Filter 1: valid ROI (finite, positive) *)
  l1 <- JsArray.filter (fun c => Validators.isValidROI (Num (Candidate.roiTime c))) candidates ;;
  (* Filter 2: reasonable timeframe *)
  l2 <- JsArray.filter (fun c => Ok (Candidate.roiTime c <=? Constants.MAX_REASONABLE_ROI)) l1 ;;
  (* Filter 3: valid candidate structure *)
  l3 <- JsArray.filter (fun c => Validators.isValidCandidate (candidateValue c)) l2 ;;
  Ok (JsArray.sort comparefn l3).

End GreedyStrategy.

Module RelaxedStrategy.
Import Js.

Definition comparefn (a b : Candidate.t) : float :=
  Candidate.roiTime a - Candidate.roiTime b.

Definition evaluate (candidates : list Candidate.t) : result (list Candidate.t) :=
  l1 <- JsArray.filter (fun c => Validators.isValidROI (Num (Candidate.roiTime c))) candidates ;;
  l2 <- JsArray.filter (fun c => Validators.isValidCandidate (candidateValue c)) l1 ;;
  Ok (JsArray.sort comparefn l2).

End RelaxedStrategy.

Module StrategyEngine.
Import Js.

(** What a strategy's [evaluate] returns: an array of candidates, or a
    value that is not an array. *)
Inductive returned :=
| AnArray (recommendations : list Candidate.t)
| NotAnArray.

(** A ranking policy: an object that extends [Strategy].  [evaluate]
    gives the outcome of the call together with the elements of the
    argument array after it, since a policy may reorder or change the array
    it is given before it fails.  [instanceofGreedy] is
    [this instanceof GreedyStrategy]. *)
Record Strategy := {
  evaluate : list Candidate.t -> result returned * list Candidate.t;
  instanceofGreedy : bool
}.

(** [new GreedyStrategy()] *)
Definition newGreedyStrategy : Strategy :=
  {| evaluate := fun candidates =>
       (r <- GreedyStrategy.evaluate candidates ;; Ok (AnArray r), candidates);
     instanceofGreedy := true |}.

(** [new RelaxedStrategy()] *)
Definition newRelaxedStrategy : Strategy :=
  {| evaluate := fun candidates =>
       (r <- RelaxedStrategy.evaluate candidates ;; Ok (AnArray r), candidates);
     instanceofGreedy := false |}.

(** The base class: [evaluate] must be implemented by the subclass. *)
Definition baseStrategy : Strategy :=
  {| evaluate := fun candidates =>
       (Throw (Error "Strategy.evaluate() must be implemented by subclass"), candidates);
     instanceofGreedy := false |}.

Record t := { strategy : Strategy }.

(** [recommend(candidates)], for an array of candidates: the value
    returned or the error thrown, and the engine afterwards. *)
Definition recommend (engine : t) (candidates : list Candidate.t)
  : result (list Candidate.t) * t :=
  let '(outcome, candidates') := evaluate (strategy engine) candidates in
  let tried :=
    r <- outcome ;;
    match r with
    | AnArray recommendations => Ok recommendations
    | NotAnArray => Throw (Error "Strategy.evaluate() must return an array")
    end in
  match tried with
  | Ok recommendations => (Ok recommendations, engine)
  | Throw error =>
      (* Fallback to greedy if strategy fails *)
      if negb (instanceofGreedy (strategy engine)) then
        let engine' := {| strategy := newGreedyStrategy |} in
        (GreedyStrategy.evaluate candidates', engine')
      else
        (* Re-throw if greedy also fails *)
        (Throw error, engine)
  end.

Definition setStrategy (engine : t) (newStrategy : Strategy) : t :=
  {| strategy := newStrategy |}.

Definition getTopRecommendations (engine : t) (candidates : list Candidate.t) (count : nat)
  : result (list Candidate.t) * t :=
  let '(all, engine') := recommend engine candidates in
  (r <- all ;; Ok (firstn count r), engine').

End StrategyEngine.

(** ** The formulations of the specification *)

Module Spec.
Import Constants EconomicModel.

(** A heuristic of the upgrade estimator (section 4.3): the estimate it
    gives for a game state and a lowercase description, or [None] when its
    pattern does not match. *)
Definition heuristic := GameState -> string -> option float.

(** 1. Explicit multiplier: [N x as efficient], applied to the building
    that the description names; no match when that building is not in the
    snapshot. *)
Definition explicitMultiplier : heuristic := fun gameState desc =>
  match RegExp.exec UPGRADE_PATTERNS.MULTIPLIER desc,
        _findAffectedBuilding gameState desc with
  | Some m, Some b =>
      Some (Building.totalCPS b * (Number.parseFloat (RegExp.capture m) - 1))
  | _, _ => None
  end.

(** 2. Percentage boost: [N%], of the named building if there is one, of
    the global rate otherwise. *)
Definition percentageBoost : heuristic := fun gameState desc =>
  match RegExp.exec UPGRADE_PATTERNS.PERCENTAGE_BOOST desc with
  | Some m =>
      let n := Number.parseFloat (RegExp.capture m) in
      match _findAffectedBuilding gameState desc with
      | Some b => Some (Building.totalCPS b * (n / 100))
      | None => Some (cookiesPerSecond gameState * (n / 100))
      end
  | None => None
  end.

(** 3. Flat per-click bonus: [+N cookies per], at 1.5 clicks a second. *)
Definition flatPerClickBonus : heuristic := fun gameState desc =>
  match RegExp.exec UPGRADE_PATTERNS.FLAT_COOKIE_BONUS desc with
  | Some m => Some (Number.parseFloat (RegExp.capture m) * 1.5)
  | None => None
  end.

(** 4. Bare building reference: the synergy factor of the building's
    total rate. *)
Definition bareBuildingReference : heuristic := fun gameState desc =>
  match _findAffectedBuilding gameState desc with
  | Some b => Some (Building.totalCPS b * UPGRADE_ESTIMATES.SYNERGY_MULTIPLIER)
  | None => None
  end.

(** 5. Click or cursor keyword: the click weight of the global rate. *)
Definition clickKeyword : heuristic := fun gameState desc =>
  if JsString.includes desc "click" || JsString.includes desc "cursor"
  then Some (cookiesPerSecond gameState * UPGRADE_ESTIMATES.CLICK_UPGRADE_WEIGHT)
  else None.

(** 6. Unknown fallback: it always applies. *)
Definition unknownFallback : heuristic := fun gameState _ =>
  Some (cookiesPerSecond gameState * UPGRADE_ESTIMATES.CONSERVATIVE_BOOST).

(** The heuristics that come after the explicit multiplier, in priority
    order, and all six. *)
Definition laterHeuristics : list heuristic :=
  [percentageBoost; flatPerClickBonus; bareBuildingReference; clickKeyword;
   unknownFallback].

Definition heuristics : list heuristic := explicitMultiplier :: laterHeuristics.

(** First match wins. *)
Fixpoint firstMatch (hs : list heuristic) (gameState : GameState) (desc : string)
  : option float :=
  match hs with
  | [] => None
  | h :: hs' =>
      match h gameState desc with
      | Some estimate => Some estimate
      | None => firstMatch hs' gameState desc
      end
  end.

(** The description matches none of the patterns 1 to 5. *)
Definition matchesNoPattern (gameState : GameState) (desc : string) : Prop :=
  RegExp.exec UPGRADE_PATTERNS.MULTIPLIER desc = None /\
  RegExp.exec UPGRADE_PATTERNS.PERCENTAGE_BOOST desc = None /\
  RegExp.exec UPGRADE_PATTERNS.FLAT_COOKIE_BONUS desc = None /\
  _findAffectedBuilding gameState desc = None /\
  JsString.includes desc "click" || JsString.includes desc "cursor" = false.

(** The description of an upgrade, as [calculateUpgradeROI] reads it. *)
Definition descriptionOf (u : Upgrade.t) : string :=
  JsString.or (JsString.or (Upgrade.descriptionDetail u) (Upgrade.description u))
              EmptyString.

(** The multiplier of a building (section 4.3). *)
Definition multiplier (b : Building.t) : float :=
  if (0 <? Building.owned b) && (0 <? Building.totalCPS b) && (0 <? Building.baseCPS b)
  then Building.totalCPS b / (Building.baseCPS b * Building.owned b)
  else 1.

(** The owned count of a building is an integer that is not negative
    (section 3): it is zero, or at least one. *)
Definition isCount (n : float) : Prop := (n =? 0) = true \/ (1 <=? n) = true.

(** The Greedy policy without its step 2, the time-ceiling filter
    (section 4.4). *)
Definition greedyWithoutCeiling (candidates : list Candidate.t)
  : Js.result (list Candidate.t) :=
  l1 <- JsArray.filter (fun c => Validators.isValidROI (Js.Num (Candidate.roiTime c))) candidates ;;
  l3 <- JsArray.filter (fun c => Validators.isValidCandidate (candidateValue c)) l1 ;;
  Js.Ok (JsArray.sort GreedyStrategy.comparefn l3).

(** A policy fails when it throws or returns a value that is not an
    array. *)
Definition failed (outcome : Js.result StrategyEngine.returned) : Prop :=
  match outcome with
  | Js.Ok (StrategyEngine.AnArray _) => False
  | _ => True
  end.

(** The ranking of paybacks, and the tie-break on rate deltas. *)
Definition paybackAscending (a b : Candidate.t) : Prop :=
  (Candidate.roiTime a <=? Candidate.roiTime b) = true.

Definition tiesByDeltaDescending (a b : Candidate.t) : Prop :=
  (Candidate.roiTime a =? Candidate.roiTime b) = true ->
  (Candidate.deltaCPS b <=? Candidate.deltaCPS a) = true.

(** What the three filters of the Greedy policy test on a candidate. *)
Definition validPayback (c : Candidate.t) : bool :=
  is_finite (Candidate.roiTime c) && negb (Candidate.roiTime c <=? 0).

Definition belowCeiling (c : Candidate.t) : bool :=
  Candidate.roiTime c <=? Constants.MAX_REASONABLE_ROI.

Definition validStructure (c : Candidate.t) : bool :=
  negb (Candidate.cost c <=? 0).

(** No two candidates of the sequence have the same payback time. *)
Definition distinctPaybacks (l : list Candidate.t) : Prop :=
  ForallOrdPairs (fun a b => (Candidate.roiTime a =? Candidate.roiTime b) = false) l.

(** The candidates that pay back in [t] seconds. *)
Definition paysBackIn (t : float) (c : Candidate.t) : bool :=
  Candidate.roiTime c =? t.

(** Ties are left in input order: for every payback time, the candidates of
    the ranking that pay back in that time are the candidates of the
    sequence that pass the payback and the structural filter and pay back
    in that time, in the order of the sequence. *)
Definition tiesInInputOrder (candidates ranked : list Candidate.t) : Prop :=
  forall t,
    filter (paysBackIn t) ranked
    = filter (paysBackIn t) (filter validStructure (filter validPayback candidates)).

(** An admissible payback time: finite, positive, at most the ceiling. *)
Definition withinCeiling (c : Candidate.t) : Prop :=
  is_finite (Candidate.roiTime c) = true /\
  (Candidate.roiTime c <=? 0) = false /\
  (0 <? Candidate.roiTime c) = true /\
  (Candidate.roiTime c <=? Constants.MAX_REASONABLE_ROI) = true.

End Spec.

(** ** Inputs of the examples *)

Module Examples.

Definition candidate (id : string) (roiTime deltaCPS : float) : Candidate.t :=
  {| Candidate.id := id; Candidate.type := building; Candidate.name := id;
     Candidate.cost := 100; Candidate.deltaCPS := deltaCPS;
     Candidate.roiTime := roiTime; Candidate.currentOwned := Some 1 |}.

(** A game that has not started: no cookies, no rate, one cursor to buy. *)
Definition idleState : GameState :=
  {| cookies := 0; cookiesPerSecond := 0;
     buildings := [ {| Building.id := "Cursor"; Building.name := "Cursor";
                       Building.owned := 0; Building.cost := 15;
                       Building.baseCPS := 0.1; Building.totalCPS := 0 |} ];
     upgrades := [] |}.

Definition grandmas : Building.t :=
  {| Building.id := "Grandma"; Building.name := "Grandma"; Building.owned := 5;
     Building.cost := 1000; Building.baseCPS := 1; Building.totalCPS := 6 |}.

Definition opaqueUpgrade : Upgrade.t :=
  {| Upgrade.id := "upgrade_0"; Upgrade.name := "Mystery"; Upgrade.cost := 1000;
     Upgrade.description := "???"; Upgrade.descriptionDetail := "" |}.

(** The multiplier pattern matches, but no farm is in [idleState]. *)
Definition farmUpgrade : Upgrade.t :=
  {| Upgrade.id := "upgrade_1"; Upgrade.name := "Fertilizer"; Upgrade.cost := 2000;
     Upgrade.description := "Farms are 2x as efficient. +10 cookies per click";
     Upgrade.descriptionDetail := "" |}.

(** A policy that always throws. *)
Definition brokenStrategy : StrategyEngine.Strategy :=
  {| StrategyEngine.evaluate := fun candidates => (Js.Throw Js.TypeError, candidates);
     StrategyEngine.instanceofGreedy := false |}.

End Examples.

(** ** EconomicModel.js: the queries on the candidates *)

Module CandidateQueries.
Import Js.

(** The string that the [type] property of a candidate holds. *)
Definition typeName (t : CandidateType) : string :=
  match t with
  | building => "building"
  | upgrade => "upgrade"
  end.

(** [candidates.find(p)]: [None] is [undefined]. *)
Definition find (p : Candidate.t -> bool) (candidates : list Candidate.t)
  : option Candidate.t :=
  List.find p candidates.

(** [getCandidate(id)]: the candidate of that id, or [null] ([None]).  A
    candidate is an object, hence truthy: [|| null] only replaces
    [undefined]. *)
Definition getCandidate (gameState : GameState) (id : value) : option Candidate.t :=
  let candidates := EconomicModel.getAllCandidates gameState in
  find (fun c => isString id (Candidate.id c)) candidates.

(** [getCandidatesByType(type)] *)
Definition getCandidatesByType (gameState : GameState) (type : value)
  : list Candidate.t :=
  List.filter (fun c => isString type (typeName (Candidate.type c)))
              (EconomicModel.getAllCandidates gameState).

(** [getAffordableCandidates()] *)
Definition getAffordableCandidates (gameState : GameState) : result (list Candidate.t) :=
  let currentCookies := cookies gameState in
  JsArray.filter
    (fun c => Validators.isAffordable (Num (Candidate.cost c)) (Num currentCookies))
    (EconomicModel.getAllCandidates gameState).

(** [getValidCandidates()] *)
Definition getValidCandidates (gameState : GameState) : result (list Candidate.t) :=
  JsArray.filter
    (fun c =>
       valid <- Validators.isValidROI (Num (Candidate.roiTime c)) ;;
       Ok (valid && (Candidate.roiTime c <=? Constants.MAX_REASONABLE_ROI)))
    (EconomicModel.getAllCandidates gameState).

End CandidateQueries.

(** ** What the properties speak of *)

Module Ranking.

(** A candidate that passes the three filters of the Greedy policy. *)
Definition admissible (c : Candidate.t) : bool :=
  Spec.validPayback c && Spec.belowCeiling c && Spec.validStructure c.

(** A candidate that passes the two filters of the Relaxed policy. *)
Definition presentable (c : Candidate.t) : bool :=
  Spec.validPayback c && Spec.validStructure c.

(** The payback time of [a] is at most that of every candidate of [l]. *)
Definition paysBackFirst (a : Candidate.t) (l : list Candidate.t) : Prop :=
  Forall (fun c => (Candidate.roiTime a <=? Candidate.roiTime c) = true) l.

End Ranking.

(** ** GameStateAdapter.js: the adapter

    The part of the adapter that reads one building of [Game.Objects]. *)

Module GameStateAdapter.
Import Js.

(** An adapter holds the game object it was made for. *)
Record t := { game : value }.

(** [new GameStateAdapter(gameObject)] *)
Definition new (gameObject : value) : result t :=
  valid <- Validators.isValidGameObject gameObject ;;
  if negb valid then Throw (Error "Invalid Game object provided to GameStateAdapter")
  else Ok {| game := gameObject |}.

(** [a || b] on values. *)
Definition or (a b : value) : value := if truthy a then a else b.

(** [v !== 0] *)
Definition isNotZero (v : value) : bool :=
  match v with
  | Num n => negb (n =? 0)
  | _ => true
  end.

Definition _extractBuildingState (building : value) (key : string) : result value :=
  name <- get building "name" ;;
  amount <- get building "amount" ;;
  price <- get building "price" ;;
  cps <- get building "cps" ;;
  storedCps <- get building "storedCps" ;;
  unlocked <- get building "unlocked" ;;
  bought <- get building "bought" ;;
  Ok (Object PlainObject
        [("id", Str key);
         ("name", name);
         ("owned", amount);
         ("cost", price);
         ("baseCPS", cps);
         ("totalCPS", or storedCps (Num 0));
         ("unlocked", Boolean (isNotZero unlocked));
         ("bought", bought)]).

(** [getBuilding(buildingName)]; the second test of [||] runs only when
    the first is false. *)
Definition getBuilding (this : t) (buildingName : string) : result value :=
  objects <- get (game this) "Objects" ;;
  building <- get objects buildingName ;;
  invalid <-
    (if negb (truthy building) then Ok true
     else valid <- Validators.isValidBuilding building ;; Ok (negb valid)) ;;
  if invalid : bool then Ok Null
  else _extractBuildingState building buildingName.

Definition getFinancialState (this : t) : result value :=
  cookies <- get (game this) "cookies" ;;
  cookiesPs <- get (game this) "cookiesPs" ;;
  Ok (Object PlainObject [("cookies", cookies); ("cps", cookiesPs)]).

End GameStateAdapter.

(** A game with one building, for the examples. *)
Module SampleGame.
Import Js.

Definition cursor : value :=
  Object PlainObject
    [("name", Str "Cursor"); ("amount", Num 3); ("price", Num 23);
     ("cps", Num 0.1); ("storedCps", Num 0.3); ("unlocked", Num 1);
     ("bought", Num 3)].

Definition game : value :=
  Object PlainObject
    [("cookies", Num 15); ("cookiesPs", Num 0.3);
     ("Objects", Object PlainObject [("Cursor", cursor)]);
     ("UpgradesInStore", Object ArrayObject [])].

End SampleGame.


(** * Properties *)

(** ** Binary64 arithmetic

    Facts of IEEE 754 arithmetic that the program relies on, proved from the
    specification of the operations: rounding never takes a number that is
    at least the smallest subnormal one to zero, so that the sign of a
    difference is the order of its operands and a product of a positive
    number by a number that is at least one is positive; the order is a
    total preorder on the numbers that are not [NaN]; one is neutral for the
    product. *)

Section Binary64Facts.
Import Binary64.
#[local] Open Scope Z_scope.

Lemma pow2_pred (d : Z) : 0 < d -> 2 ^ d = 2 * 2 ^ (d - 1).
Proof.
intros Hd. rewrite <- Z.pow_succ_r by lia. f_equal. lia.
Qed.

Lemma digits2_pos_bounds (m : positive) :
2 ^ (Zpos (digits2_pos m) - 1) <= Zpos m < 2 ^ Zpos (digits2_pos m).
Proof.
induction m as [m IH|m IH|]; cbn [digits2_pos].
- rewrite Pos2Z.inj_succ.
  rewrite (pow2_pred (Z.succ _)) by lia.
  replace (Z.succ (Zpos (digits2_pos m)) - 1) with (Zpos (digits2_pos m)) by lia.
  rewrite (pow2_pred (Zpos (digits2_pos m))) in * by lia.
  generalize dependent (2 ^ (Zpos (digits2_pos m) - 1)). intros; lia.
- rewrite Pos2Z.inj_succ.
  rewrite (pow2_pred (Z.succ _)) by lia.
  replace (Z.succ (Zpos (digits2_pos m)) - 1) with (Zpos (digits2_pos m)) by lia.
  rewrite (pow2_pred (Zpos (digits2_pos m))) in * by lia.
  generalize dependent (2 ^ (Zpos (digits2_pos m) - 1)). intros; lia.
- cbn. lia.
Qed.

Lemma shr_1_m mrs : 0 <= shr_m mrs -> shr_m (shr_1 mrs) = shr_m mrs / 2.
Proof.
destruct mrs as [m r s]. cbn [shr_m]. intros Hm.
destruct m as [|p|p]; [reflexivity| |lia].
destruct p as [p|p|]; cbn [shr_1 shr_m].
- apply (Z.div_unique (Zpos p~1) 2 (Zpos p) 1); lia.
- apply (Z.div_unique (Zpos p~0) 2 (Zpos p) 0); lia.
- reflexivity.
Qed.

Lemma pow2_pos (n : Z) : 0 <= n -> 0 < 2 ^ n.
Proof. intros. apply Z.pow_pos_nonneg; lia. Qed.

Lemma iter_shr_1_m p : forall mrs, 0 <= shr_m mrs ->
shr_m (iter_pos shr_1 p mrs) = shr_m mrs / 2 ^ Zpos p.
Proof.
induction p as [p IH|p IH|]; intros mrs Hm; cbn [iter_pos].
- assert (H1 : 0 <= shr_m (shr_1 mrs)) by (rewrite shr_1_m by assumption; apply Z.div_pos; lia).
  assert (H2 : 0 <= shr_m (iter_pos shr_1 p (shr_1 mrs))).
  { rewrite IH by assumption. apply Z.div_pos; [lia|apply pow2_pos; lia]. }
  pose proof (pow2_pos (Zpos p) ltac:(lia)) as Hp.
  rewrite IH, IH, shr_1_m by assumption.
  rewrite !Z.div_div by lia. f_equal.
  replace (Zpos p~1) with (1 + Zpos p + Zpos p) by lia.
  rewrite !Z.pow_add_r by lia. rewrite Z.pow_1_r. lia.
- assert (H2 : 0 <= shr_m (iter_pos shr_1 p mrs)).
  { rewrite IH by assumption. apply Z.div_pos; [lia|apply pow2_pos; lia]. }
  pose proof (pow2_pos (Zpos p) ltac:(lia)) as Hp.
  rewrite IH, IH by assumption.
  rewrite !Z.div_div by lia. f_equal.
  replace (Zpos p~0) with (Zpos p + Zpos p) by lia.
  rewrite !Z.pow_add_r by lia. reflexivity.
- rewrite shr_1_m by assumption. reflexivity.
Qed.

Lemma shr_record_of_loc_m m l : shr_m (shr_record_of_loc m l) = m.
Proof. destruct l as [|[ | | ]]; reflexivity. Qed.

Lemma pow2_le_1 (n : Z) : n <= 0 -> 2 ^ n <= 1.
Proof.
intros Hn. destruct n as [|p|p]; [cbn; lia|lia|].
rewrite Z.pow_neg_r by lia. lia.
Qed.

(** Shifting a positive mantissa to its format exponent leaves it positive,
  as long as the number is at least the smallest subnormal one. *)
Lemma shr_fexp_pos m e l :
0 < m -> 2 ^ (-1074 - e) <= m ->
0 < shr_m (fst (shr_fexp prec emax m e l)) /\
2 ^ (-1074 - snd (shr_fexp prec emax m e l)) <= shr_m (fst (shr_fexp prec emax m e l)).
Proof.
intros Hm Hinv. unfold shr_fexp, shr.
destruct m as [|p|p]; try lia. cbn [Zdigits2].
pose proof (digits2_pos_bounds p) as Hd.
set (d := Zpos (digits2_pos p)) in *.
assert (Hd1 : 0 < d) by (unfold d; lia).
unfold fexp, SpecFloat.emin, prec, emax.
change (3 - 1024 - 53) with (-1074).
destruct (Z.max (d + e - 53) (-1074) - e) as [|n|n] eqn:En; cbn [fst snd];
  rewrite ?shr_record_of_loc_m; try (split; [lia|assumption]).
rewrite iter_shr_1_m by (rewrite shr_record_of_loc_m; lia).
rewrite shr_record_of_loc_m.
assert (Hn : 2 ^ Zpos n <= Zpos p).
{ destruct (Z.max_spec (d + e - 53) (-1074)) as [[_ Hmax]|[_ Hmax]].
  - replace (Zpos n) with (-1074 - e) by lia. assumption.
  - apply Z.le_trans with (2 ^ (d - 1)); [|lia].
    apply Z.pow_le_mono_r; lia. }
pose proof (pow2_pos (Zpos n) ltac:(lia)) as Hp.
assert (H1 : 1 <= Zpos p / 2 ^ Zpos n).
{ apply Z.div_le_lower_bound; lia. }
split; [lia|].
apply Z.le_trans with 1; [|assumption].
apply pow2_le_1. lia.
Qed.

Lemma round_nearest_even_ge m l : m <= round_nearest_even m l.
Proof.
destruct l as [|[ | | ]]; cbn; try lia. destruct (Z.even m); lia.
Qed.


Lemma binary_round_aux_nonzero s m e l :
0 < m -> 2 ^ (-1074 - e) <= m ->
signed_nonzero s (binary_round_aux prec emax s m e l).
Proof.
intros Hm Hinv. unfold binary_round_aux.
destruct (shr_fexp_pos m e l Hm Hinv) as [H1 H2].
destruct (shr_fexp prec emax m e l) as [mrs' e'] eqn:E1. cbn [fst snd] in H1, H2.
pose proof (round_nearest_even_ge (shr_m mrs') (loc_of_shr_record mrs')) as Hr.
set (m1 := round_nearest_even (shr_m mrs') (loc_of_shr_record mrs')) in *.
destruct (shr_fexp_pos m1 e' loc_Exact ltac:(lia) ltac:(lia)) as [H3 H4].
destruct (shr_fexp prec emax m1 e' loc_Exact) as [mrs'' e''] eqn:E2. cbn [fst snd] in H3, H4.
destruct (shr_m mrs'') as [|q|q]; try lia.
destruct (e'' <=? emax - prec); reflexivity.
Qed.

Lemma iter_xO_value (m d : positive) : Zpos (Pos.iter xO m d) = Zpos m * 2 ^ Zpos d.
Proof.
induction d as [|d IH] using Pos.peano_ind.
- cbn. lia.
- rewrite Pos.iter_succ, Pos2Z.inj_xO, IH, Pos2Z.inj_succ, Z.pow_succ_r by lia. lia.
Qed.

Lemma shl_align_value mx ex ez : ez <= ex ->
Zpos (fst (shl_align mx ex ez)) = Zpos mx * 2 ^ (ex - ez).
Proof.
intros Hle. unfold shl_align.
destruct (ez - ex) as [|d|d] eqn:E; cbn [fst]; try lia.
- replace (ex - ez) with 0 by lia. cbn. lia.
- rewrite iter_xO_value. f_equal. f_equal. lia.
Qed.

Lemma shl_align_exp mx ex ez : snd (shl_align mx ex ez) = Z.min ex ez.
Proof.
unfold shl_align. destruct (ez - ex) as [|d|d] eqn:E; cbn [snd]; lia.
Qed.

Lemma binary_round_nonzero s m e :
-1074 <= e -> signed_nonzero s (binary_round prec emax s m e).
Proof.
intros He. unfold binary_round.
pose proof (shl_align_exp m e (fexp prec emax (Zpos (digits2_pos m) + e))) as Hs.
destruct (shl_align m e (fexp prec emax (Zpos (digits2_pos m) + e))) as [mz ez].
cbn [snd] in Hs.
apply binary_round_aux_nonzero; [lia|].
apply Z.le_trans with 1; [|lia]. apply pow2_le_1.
unfold fexp, SpecFloat.emin, prec, emax in Hs. lia.
Qed.

Lemma binary_normalize_nonzero m e sz :
-1074 <= e -> m <> 0 ->
signed_nonzero (m <? 0) (binary_normalize prec emax m e sz).
Proof.
intros He Hm. destruct m as [|p|p]; [lia| |]; cbn [binary_normalize];
  apply binary_round_nonzero; assumption.
Qed.

(** What validity says of a finite number. *)
Lemma bounded_inv m e : bounded prec emax m e = true ->
-1074 <= e <= 971 /\ Zpos m < 2 ^ 53 /\ (-1074 < e -> 2 ^ 52 <= Zpos m).
Proof.
unfold bounded, canonical_mantissa, fexp, SpecFloat.emin, prec, emax.
intros H. apply andb_prop in H as [H1 H2].
apply Z.eqb_eq in H1. apply Z.leb_le in H2.
pose proof (digits2_pos_bounds m) as Hd.
set (d := Zpos (digits2_pos m)) in *.
split; [lia|]. split.
- apply Z.lt_le_trans with (2 ^ d); [lia|]. apply Z.pow_le_mono_r; lia.
- intros He. replace 52 with (d - 1) by lia. lia.
Qed.



Lemma compare_cont_Eq (p q : positive) : Pos.compare_cont Eq p q = (Zpos p ?= Zpos q).
Proof. reflexivity. Qed.

Lemma SFcompare_key x y :
valid_binary x = true -> valid_binary y = true -> is_number x -> is_number y ->
SFcompare x y = Some (key x ?= key y).
Proof.
intros Vx Vy Nx Ny.
destruct x as [sx|sx| |sx mx ex]; try contradiction;
destruct y as [sy|sy| |sy my ey]; try contradiction;
cbn [valid_binary] in Vx, Vy;
try (apply bounded_inv in Vx as (Hx1 & Hx2 & Hx3));
try (apply bounded_inv in Vy as (Hy1 & Hy2 & Hy3));
cbn [SFcompare key]; f_equal; symmetry;
change (2 ^ 53) with 9007199254740992 in *;
try destruct sx; try destruct sy; cbn [cond_Zopp];
try rewrite compare_cont_Eq;
try (destruct (Z.compare_spec ex ey); try destruct (Z.compare_spec (Zpos mx) (Zpos my)); cbn [CompOpp]);
first [ apply Z.compare_eq_iff; lia | apply Z.compare_lt_iff; lia | apply Z.compare_gt_iff; lia ].
Qed.

Lemma pos_of_signed_nonzero s z :
signed_nonzero s z -> SFltb (S754_zero false) z = negb s.
Proof.
destruct z as [sz|sz| |sz mz ez]; cbn; try contradiction; intros ->; destruct s; reflexivity.
Qed.

Lemma SFltb_key x y :
valid_binary x = true -> valid_binary y = true -> is_number x -> is_number y ->
SFltb x y = (key x <? key y).
Proof.
intros. unfold SFltb, Z.ltb. rewrite SFcompare_key by assumption. reflexivity.
Qed.

Lemma SFleb_key x y :
valid_binary x = true -> valid_binary y = true -> is_number x -> is_number y ->
SFleb x y = (key x <=? key y).
Proof.
intros. unfold SFleb, Z.leb. rewrite SFcompare_key by assumption.
destruct (key x ?= key y); reflexivity.
Qed.

Lemma SFeqb_key x y :
valid_binary x = true -> valid_binary y = true -> is_number x -> is_number y ->
SFeqb x y = (key x =? key y).
Proof.
intros. unfold SFeqb, Z.eqb. rewrite SFcompare_key by assumption.
destruct (key x ?= key y) eqn:E.
- apply Z.compare_eq in E. rewrite E. destruct (key y); try reflexivity; symmetry; apply Pos.eqb_refl.
- destruct (key x), (key y); try reflexivity; try discriminate;
  symmetry; apply Pos.eqb_neq; intros ->; cbn in E; rewrite ?Pos.compare_refl in E; discriminate.
- destruct (key x), (key y); try reflexivity; try discriminate;
  symmetry; apply Pos.eqb_neq; intros ->; cbn in E; rewrite ?Pos.compare_refl in E; discriminate.
Qed.

(** The aligned mantissas of two valid finite numbers compare as their keys. *)
Lemma value_key sx mx ex sy my ey :
bounded prec emax mx ex = true -> bounded prec emax my ey = true ->
let ez := Z.min ex ey in
cond_Zopp sx (Zpos mx * 2 ^ (ex - ez)) < cond_Zopp sy (Zpos my * 2 ^ (ey - ez)) <->
key (S754_finite sx mx ex) < key (S754_finite sy my ey).
Proof.
intros Vx Vy ez.
apply bounded_inv in Vx as (Hx1 & Hx2 & Hx3).
apply bounded_inv in Vy as (Hy1 & Hy2 & Hy3).
cbn [key]. change (2 ^ 53) with 9007199254740992 in *.
change (2 ^ 52) with 4503599627370496 in *.
destruct (Z.lt_total ex ey) as [Hlt|[Heq|Hgt]].
- assert (Hez : ez = ex) by (unfold ez; lia). rewrite Hez.
  replace (ex - ex) with 0 by lia. rewrite Z.pow_0_r, Z.mul_1_r.
  assert (HP : 2 <= 2 ^ (ey - ex)).
  { change 2 with (2 ^ 1) at 1. apply Z.pow_le_mono_r; lia. }
  assert (HB : 2 * Zpos my <= Zpos my * 2 ^ (ey - ex)) by nia.
  generalize dependent (Zpos my * 2 ^ (ey - ex)). intros B HB.
  destruct sx, sy; cbn [cond_Zopp]; lia.
- assert (Hez : ez = ex) by (unfold ez; lia). rewrite Hez. subst ey.
  replace (ex - ex) with 0 by lia. rewrite Z.pow_0_r, !Z.mul_1_r.
  destruct sx, sy; cbn [cond_Zopp]; lia.
- assert (Hez : ez = ey) by (unfold ez; lia). rewrite Hez.
  replace (ey - ey) with 0 by lia. rewrite Z.pow_0_r, Z.mul_1_r.
  assert (HP : 2 <= 2 ^ (ex - ey)).
  { change 2 with (2 ^ 1) at 1. apply Z.pow_le_mono_r; lia. }
  assert (HB : 2 * Zpos mx <= Zpos mx * 2 ^ (ex - ey)) by nia.
  generalize dependent (Zpos mx * 2 ^ (ex - ey)). intros B HB.
  destruct sx, sy; cbn [cond_Zopp]; lia.
Qed.

(** The sign of a difference is the order of its operands: no difference
  of two distinct numbers rounds to zero. *)
Lemma SFsub_pos x y :
valid_binary x = true -> valid_binary y = true -> is_number x -> is_number y ->
SFltb (S754_zero false) (SFsub prec emax x y) = SFltb y x.
Proof.
intros Vx Vy Nx Ny. rewrite (SFltb_key y x) by assumption.
destruct x as [sx|sx| |sx mx ex]; try contradiction;
destruct y as [sy|sy| |sy my ey]; try contradiction;
try (destruct sx, sy; reflexivity);
try (destruct sx; reflexivity);
try (destruct sy; reflexivity).
- (* zero - finite *)
  cbn [SFsub key]. destruct sy; cbn; unfold Z.ltb; cbn; try reflexivity.
  all: cbn [valid_binary] in Vy; apply bounded_inv in Vy as (Hy1 & _);
       destruct ((ey + 1075) * 9007199254740992 + Zpos my) eqn:E; try reflexivity; lia.
- (* infinity - finite *)
  cbn [SFsub key valid_binary] in *. apply bounded_inv in Vy as (Hy1 & Hy2 & _).
  change (2 ^ 53) with 9007199254740992 in *.
  destruct sx, sy; cbn; symmetry; first [apply Z.ltb_lt; lia | apply Z.ltb_ge; lia].
- (* finite - zero *)
  cbn [SFsub key valid_binary] in *. apply bounded_inv in Vx as (Hx1 & Hx2 & _).
  change (2 ^ 53) with 9007199254740992 in *.
  destruct sx; cbn; symmetry; first [apply Z.ltb_lt; lia | apply Z.ltb_ge; lia].
- (* finite - infinity *)
  cbn [SFsub key valid_binary] in *. apply bounded_inv in Vx as (Hx1 & Hx2 & _).
  change (2 ^ 53) with 9007199254740992 in *.
  destruct sx, sy; cbn; symmetry; first [apply Z.ltb_lt; lia | apply Z.ltb_ge; lia].
- (* finite - finite *)
  cbn [valid_binary] in Vx, Vy.
  pose proof (value_key sx mx ex sy my ey Vx Vy) as Hxy.
  pose proof (value_key sy my ey sx mx ex Vy Vx) as Hyx.
  cbn zeta in Hxy, Hyx. rewrite (Z.min_comm ey ex) in Hyx.
  pose proof (bounded_inv _ _ Vx) as (Hx1 & _).
  pose proof (bounded_inv _ _ Vy) as (Hy1 & _).
  cbn [SFsub]. cbv zeta.
  rewrite !shl_align_value by lia.
  set (vx := cond_Zopp sx (Zpos mx * 2 ^ (ex - Z.min ex ey))) in *.
  set (vy := cond_Zopp sy (Zpos my * 2 ^ (ey - Z.min ex ey))) in *.
  set (kx := key (S754_finite sx mx ex)) in *.
  set (ky := key (S754_finite sy my ey)) in *.
  clearbody vx vy kx ky.
  destruct (Z.eq_dec (vx - vy) 0) as [E0|E0].
  + rewrite E0. cbn [binary_normalize SFltb SFcompare]. symmetry. apply Z.ltb_ge. lia.
  + assert (Hmin : -1074 <= Z.min ex ey) by lia.
    rewrite (pos_of_signed_nonzero _ _ (binary_normalize_nonzero (vx - vy) _ false Hmin E0)).
    destruct (Z.ltb_spec (vx - vy) 0); cbn [negb]; symmetry;
      [apply Z.ltb_ge | apply Z.ltb_lt]; lia.
Qed.

Lemma shr_fexp_canonical m e l :
canonical_mantissa prec emax m e = true ->
shr_fexp prec emax (Zpos m) e l = (shr_record_of_loc (Zpos m) l, e).
Proof.
unfold canonical_mantissa, shr_fexp. intros H. apply Z.eqb_eq in H.
cbn [Zdigits2]. rewrite H, Z.sub_diag. reflexivity.
Qed.

Lemma digits2_pos_shift52 m :
Zpos (digits2_pos (m * 4503599627370496)) = Zpos (digits2_pos m) + 52.
Proof.
rewrite Pos.mul_comm. cbn [Pos.mul digits2_pos]. rewrite !Pos2Z.inj_succ. lia.
Qed.

Lemma shr_shift52 m :
iter_pos shr_1 52 (Build_shr_record (Zpos (m * 4503599627370496)) false false)
= Build_shr_record (Zpos m) false false.
Proof.
rewrite Pos.mul_comm. cbn [Pos.mul]. cbn [iter_pos shr_1 orb]. reflexivity.
Qed.

Lemma SFmul_one x : valid_binary x = true ->
SFmul prec emax x (S754_finite false 4503599627370496 (-52)) = x.
Proof.
intros Vx. destruct x as [sx|sx| |sx mx ex]; cbn [SFmul]; rewrite ?xorb_false_r; try reflexivity.
cbn [valid_binary] in Vx. unfold bounded in Vx. apply andb_prop in Vx as [Hc Hb].
unfold binary_round_aux.
assert (E1 : shr_fexp prec emax (Zpos (mx * 4503599627370496)) (ex + -52) loc_Exact
             = (Build_shr_record (Zpos mx) false false, ex)).
{ unfold shr_fexp. cbn [Zdigits2]. rewrite digits2_pos_shift52.
  unfold canonical_mantissa in Hc. apply Z.eqb_eq in Hc.
  replace (Zpos (digits2_pos mx) + 52 + (ex + -52)) with (Zpos (digits2_pos mx) + ex) by lia.
  rewrite Hc. replace (ex - (ex + -52)) with 52 by lia.
  cbn [shr shr_record_of_loc]. rewrite shr_shift52. f_equal. lia. }
rewrite E1. cbn [shr_m loc_of_shr_record round_nearest_even].
rewrite shr_fexp_canonical by assumption. cbn [shr_record_of_loc shr_m].
rewrite Hb. reflexivity.
Qed.


Lemma SFmul_pos x y :
valid_binary x = true -> valid_binary y = true -> is_number y ->
signed_nonzero false x -> key SFone <= key y ->
signed_nonzero false (SFmul prec emax x y).
Proof.
intros Vx Vy Ny Px Hy.
destruct x as [sx|sx| |sx mx ex]; cbn [signed_nonzero] in Px; try contradiction; subst sx;
destruct y as [sy|sy| |sy my ey]; cbn [is_number] in Ny; try contradiction;
cbn [key SFone cond_Zopp valid_binary] in *;
try (apply bounded_inv in Vx as (Hx1 & Hx2 & Hx3));
try (apply bounded_inv in Vy as (Hy1 & Hy2 & Hy3));
change (2 ^ 53) with 9007199254740992 in *;
change (2 ^ 52) with 4503599627370496 in *;
try lia;
try (destruct sy; cbn [cond_Zopp] in Hy; [lia|]; reflexivity).
destruct sy; cbn [cond_Zopp] in Hy; [lia|].
cbn [SFmul xorb]. apply binary_round_aux_nonzero; [lia|].
assert (Hmy : 4503599627370496 <= Zpos my) by lia.
apply Z.le_trans with (2 ^ 52).
- apply Z.pow_le_mono_r; lia.
- change (2 ^ 52) with 4503599627370496. nia.
Qed.

Lemma SFmul_zero s y : SFltb (S754_zero false) (SFmul prec emax (S754_zero s) y) = false.
Proof. destruct y as [sy|sy| |sy my ey]; reflexivity. Qed.

#[local] Open Scope float_scope.


Lemma Prim2SF_nan x : is_nan x = true -> Prim2SF x = S754_nan.
Proof. intros H. unfold Prim2SF. rewrite H. reflexivity. Qed.

Lemma Prim2SF_number x : is_nan x = false -> is_number (Prim2SF x).
Proof.
intros H. unfold Prim2SF. rewrite H.
destruct (is_zero x); [exact I|]. destruct (is_infinity x); [exact I|].
destruct (Z.frexp x) as [r e]. destruct (shr_fexp _ _ _ _ _) as [mrs e'].
destruct (shr_m mrs); exact I.
Qed.

Lemma ltb_key x y : is_nan x = false -> is_nan y = false ->
(x <? y) = (fkey x <? fkey y)%Z.
Proof.
intros Hx Hy. rewrite ltb_spec.
apply SFltb_key; auto using Prim2SF_valid, Prim2SF_number.
Qed.

Lemma leb_key x y : is_nan x = false -> is_nan y = false ->
(x <=? y) = (fkey x <=? fkey y)%Z.
Proof.
intros Hx Hy. rewrite leb_spec.
apply SFleb_key; auto using Prim2SF_valid, Prim2SF_number.
Qed.

Lemma eqb_key x y : is_nan x = false -> is_nan y = false ->
(x =? y) = (fkey x =? fkey y)%Z.
Proof.
intros Hx Hy. rewrite FloatAxioms.eqb_spec.
apply SFeqb_key; auto using Prim2SF_valid, Prim2SF_number.
Qed.

Lemma ltb_nan_l x y : is_nan x = true -> (x <? y) = false.
Proof. intros H. rewrite ltb_spec, (Prim2SF_nan x H). reflexivity. Qed.

Lemma ltb_nan_r x y : is_nan y = true -> (x <? y) = false.
Proof. intros H. rewrite ltb_spec, (Prim2SF_nan y H). destruct (Prim2SF x); reflexivity. Qed.

Lemma leb_nan_l x y : is_nan x = true -> (x <=? y) = false.
Proof. intros H. rewrite leb_spec, (Prim2SF_nan x H). reflexivity. Qed.

Lemma leb_nan_r x y : is_nan y = true -> (x <=? y) = false.
Proof. intros H. rewrite leb_spec, (Prim2SF_nan y H). destruct (Prim2SF x); reflexivity. Qed.

Lemma sub_pos x y : is_nan x = false -> is_nan y = false ->
(0 <? x - y) = (y <? x).
Proof.
intros Hx Hy. rewrite !ltb_spec, sub_spec.
change (Prim2SF 0) with (S754_zero false).
apply SFsub_pos; auto using Prim2SF_valid, Prim2SF_number.
Qed.

Lemma mul_one x : x * 1 = x.
Proof.
apply Prim2SF_inj. rewrite mul_spec.
change (Prim2SF 1) with SFone. apply SFmul_one, Prim2SF_valid.
Qed.

Lemma is_nan_false_of_ltb_l x y : (x <? y) = true -> is_nan x = false.
Proof.
intros H. destruct (is_nan x) eqn:E; [|reflexivity].
rewrite ltb_nan_l in H by assumption. discriminate.
Qed.

Lemma is_nan_false_of_ltb_r x y : (x <? y) = true -> is_nan y = false.
Proof.
intros H. destruct (is_nan y) eqn:E; [|reflexivity].
rewrite ltb_nan_r in H by assumption. discriminate.
Qed.

Lemma is_nan_false_of_leb_l x y : (x <=? y) = true -> is_nan x = false.
Proof.
intros H. destruct (is_nan x) eqn:E; [|reflexivity].
rewrite leb_nan_l in H by assumption. discriminate.
Qed.

Lemma is_nan_false_of_leb_r x y : (x <=? y) = true -> is_nan y = false.
Proof.
intros H. destruct (is_nan y) eqn:E; [|reflexivity].
rewrite leb_nan_r in H by assumption. discriminate.
Qed.

Lemma mul_pos x y : (0 <? x) = true -> (1 <=? y) = true -> (0 <? x * y) = true.
Proof.
intros Hx Hy.
pose proof (is_nan_false_of_leb_r _ _ Hy) as Ny.
rewrite leb_key in Hy by (reflexivity || assumption). apply Z.leb_le in Hy.
rewrite ltb_spec in Hx. rewrite ltb_spec, mul_spec.
change (Prim2SF 0) with (S754_zero false) in *.
rewrite (pos_of_signed_nonzero false); [reflexivity|].
apply SFmul_pos; auto using Prim2SF_valid, Prim2SF_number.
destruct (Prim2SF x) as [s|s| |s m e]; try discriminate; destruct s; try discriminate; reflexivity.
Qed.

Lemma mul_zero_l x y : (x =? 0) = true -> (0 <? x * y) = false.
Proof.
intros Hx. rewrite FloatAxioms.eqb_spec in Hx. rewrite ltb_spec, mul_spec.
change (Prim2SF 0) with (S754_zero false) in *.
destruct (Prim2SF x) as [s|s| |s m e]; try discriminate.
- apply SFmul_zero.
- destruct s; discriminate.
- destruct s; discriminate.
Qed.

Lemma div_nan_r x y : is_nan y = true -> is_nan (x / y) = true.
Proof.
intros H. destruct (is_nan (x / y)) eqn:E; [reflexivity|].
apply Prim2SF_number in E. rewrite div_spec, (Prim2SF_nan y H) in E.
destruct (Prim2SF x); contradiction.
Qed.

End Binary64Facts.

Import Binary64.

(** ** Arrays *)

Lemma filter_Ok {A} (p : A -> Js.result bool) (q : A -> bool) (l : list A) :
  (forall x, In x l -> p x = Js.Ok (q x)) ->
  JsArray.filter p l = Js.Ok (List.filter q l).
Proof.
  induction l as [|x l IH]; intros H; cbn [JsArray.filter List.filter].
  - reflexivity.
  - rewrite (H x (or_introl eq_refl)), IH by (intros y Hy; apply H; right; exact Hy).
    cbn [Js.bind]. destruct (q x); reflexivity.
Qed.

Lemma insert_Permutation {A} (f : A -> A -> float) (x : A) (l : list A) :
  Permutation (JsArray.insert f x l) (x :: l).
Proof.
  induction l as [|y l IH]; cbn [JsArray.insert].
  - apply Permutation_refl.
  - destruct (0 <? f x y).
    + apply Permutation_trans with (y :: x :: l); [apply perm_skip, IH|apply perm_swap].
    + apply Permutation_refl.
Qed.

Lemma sort_Permutation {A} (f : A -> A -> float) (l : list A) :
  Permutation (JsArray.sort f l) l.
Proof.
  induction l as [|x l IH]; cbn [JsArray.sort].
  - apply Permutation_refl.
  - apply Permutation_trans with (x :: JsArray.sort f l);
      [apply insert_Permutation|apply perm_skip, IH].
Qed.

Lemma sort_In {A} (f : A -> A -> float) (l : list A) (x : A) :
  In x (JsArray.sort f l) <-> In x l.
Proof.
  split; apply Permutation_in; [|apply Permutation_sym]; apply sort_Permutation.
Qed.

(** The insertion sort orders by [R] the elements of a domain [P] on which
    the comparison function agrees with [R], when [R] is transitive. *)
Section Sorted.
Context {A : Type}.
Variables (f : A -> A -> float) (P : A -> Prop) (R : A -> A -> Prop).
Hypothesis R_trans : forall x y z, R x y -> R y z -> R x z.
Hypothesis after : forall x y, P x -> P y -> (0 <? f x y) = true -> R y x.
Hypothesis before : forall x y, P x -> P y -> (0 <? f x y) = false -> R x y.

Lemma insert_sorted (x : A) (l : list A) :
  P x -> Forall P l -> StronglySorted R l -> StronglySorted R (JsArray.insert f x l).
Proof.
  intros Px. induction l as [|y l IH]; intros Pl Sl; cbn [JsArray.insert].
  - constructor; constructor.
  - apply Forall_cons_iff in Pl as [Py Pl].
    apply StronglySorted_inv in Sl as [Sl Hy].
    destruct (0 <? f x y) eqn:E.
    + constructor; [apply IH; assumption|].
      apply (Permutation_Forall (Permutation_sym (insert_Permutation f x l))).
      constructor; [apply after; assumption|assumption].
    + constructor; [constructor; assumption|].
      constructor; [apply before; assumption|].
      apply Forall_impl with (P := R y); [|assumption].
      intros z. apply R_trans, before; assumption.
Qed.

Lemma sort_sorted (l : list A) :
  Forall P l -> StronglySorted R (JsArray.sort f l).
Proof.
  induction l as [|x l IH]; intros Pl; cbn [JsArray.sort].
  - constructor.
  - apply Forall_cons_iff in Pl as [Px Pl].
    apply insert_sorted; [assumption| |apply IH; assumption].
    apply (Permutation_Forall (Permutation_sym (sort_Permutation f l))). assumption.
Qed.
End Sorted.

Lemma insert_ext {A} (f g : A -> A -> float) (x : A) (l : list A) :
  (forall y, In y l -> f x y = g x y) -> JsArray.insert f x l = JsArray.insert g x l.
Proof.
  induction l as [|y l IH]; intros H; cbn [JsArray.insert]; [reflexivity|].
  rewrite (H y (or_introl eq_refl)), IH by (intros z Hz; apply H; right; exact Hz).
  reflexivity.
Qed.

(** Two comparison functions that agree on every element and the elements
    after it sort alike. *)
Lemma sort_ext {A} (f g : A -> A -> float) (l : list A) :
  ForallOrdPairs (fun x y => f x y = g x y) l -> JsArray.sort f l = JsArray.sort g l.
Proof.
  induction 1 as [|x l Hx Hl IH]; cbn [JsArray.sort]; [reflexivity|].
  rewrite IH. apply insert_ext. intros y Hy.
  apply (proj1 (Forall_forall _ _) Hx). apply (sort_In g l y), Hy.
Qed.

(** ** The filters of the policies *)

Lemma isValidROI_Num (r : float) :
  Validators.isValidROI (Js.Num r) = Js.Ok (is_finite r && negb (r <=? 0)).
Proof.
  unfold Validators.isValidROI. cbn.
  destruct (is_finite r), (r <=? 0); reflexivity.
Qed.

Lemma isValidCandidate_candidateValue (c : Candidate.t) :
  Validators.isValidCandidate (candidateValue c) = Js.Ok (Spec.validStructure c).
Proof.
  destruct c as [id type name cost deltaCPS roiTime currentOwned].
  unfold Spec.validStructure. cbn [Candidate.cost].
  destruct type, currentOwned; cbn; destruct (cost <=? 0); reflexivity.
Qed.

Lemma GreedyStrategy_evaluate_eq (candidates : list Candidate.t) :
  GreedyStrategy.evaluate candidates =
  Js.Ok (JsArray.sort GreedyStrategy.comparefn
           (filter Spec.validStructure
              (filter Spec.belowCeiling (filter Spec.validPayback candidates)))).
Proof.
  unfold GreedyStrategy.evaluate.
  rewrite (filter_Ok _ Spec.validPayback) by (intros; apply isValidROI_Num).
  cbn [Js.bind].
  rewrite (filter_Ok _ Spec.belowCeiling) by reflexivity.
  cbn [Js.bind].
  rewrite (filter_Ok _ Spec.validStructure) by (intros; apply isValidCandidate_candidateValue).
  reflexivity.
Qed.

Lemma RelaxedStrategy_evaluate_eq (candidates : list Candidate.t) :
  RelaxedStrategy.evaluate candidates =
  Js.Ok (JsArray.sort RelaxedStrategy.comparefn
           (filter Spec.validStructure (filter Spec.validPayback candidates))).
Proof.
  unfold RelaxedStrategy.evaluate.
  rewrite (filter_Ok _ Spec.validPayback) by (intros; apply isValidROI_Num).
  cbn [Js.bind].
  rewrite (filter_Ok _ Spec.validStructure) by (intros; apply isValidCandidate_candidateValue).
  reflexivity.
Qed.

Lemma greedyWithoutCeiling_eq (candidates : list Candidate.t) :
  Spec.greedyWithoutCeiling candidates =
  Js.Ok (JsArray.sort GreedyStrategy.comparefn
           (filter Spec.validStructure (filter Spec.validPayback candidates))).
Proof.
  unfold Spec.greedyWithoutCeiling.
  rewrite (filter_Ok _ Spec.validPayback) by (intros; apply isValidROI_Num).
  cbn [Js.bind].
  rewrite (filter_Ok _ Spec.validStructure) by (intros; apply isValidCandidate_candidateValue).
  reflexivity.
Qed.

(** ** Numbers that are not NaN *)

Lemma is_finite_not_nan (x : float) : is_finite x = true -> is_nan x = false.
Proof.
  unfold is_finite. destruct (is_nan x); [discriminate|reflexivity].
Qed.

Lemma fkey_zero : fkey 0 = 0%Z.
Proof. reflexivity. Qed.

(** A number that is not [<= 0] is positive. *)
Lemma positive_of_not_leb (x : float) :
  is_nan x = false -> (x <=? 0) = false -> (0 <? x) = true.
Proof.
  intros Hn H. rewrite leb_key in H by (assumption || reflexivity).
  rewrite ltb_key by (assumption || reflexivity).
  apply Z.leb_gt in H. apply Z.ltb_lt. exact H.
Qed.

Lemma not_leb_of_positive (x : float) : (0 <? x) = true -> (x <=? 0) = false.
Proof.
  intros H. pose proof (is_nan_false_of_ltb_r _ _ H) as Hn.
  rewrite ltb_key in H by (assumption || reflexivity).
  rewrite leb_key by (assumption || reflexivity).
  apply Z.ltb_lt in H. apply Z.leb_gt. exact H.
Qed.

Lemma not_ltb_of_nonnegative (x : float) : (0 <=? x) = true -> (x <? 0) = false.
Proof.
  intros H. pose proof (is_nan_false_of_leb_r _ _ H) as Hn.
  rewrite leb_key in H by (assumption || reflexivity).
  rewrite ltb_key by (assumption || reflexivity).
  apply Z.leb_le in H. apply Z.ltb_ge. exact H.
Qed.

Lemma validPayback_inv (c : Candidate.t) :
  Spec.validPayback c = true ->
  is_finite (Candidate.roiTime c) = true /\
  is_nan (Candidate.roiTime c) = false /\
  (Candidate.roiTime c <=? 0) = false /\
  (0 <? Candidate.roiTime c) = true.
Proof.
  unfold Spec.validPayback. intros H. apply andb_prop in H as [H1 H2].
  apply negb_true_iff in H2. pose proof (is_finite_not_nan _ H1) as Hn.
  auto using positive_of_not_leb.
Qed.

(** ** The economic model *)

Lemma pushAll_In {A} (f : A -> option Candidate.t) (l : list A) (c : Candidate.t) :
  In c (EconomicModel.pushAll f l) -> exists x, In x l /\ f x = Some c.
Proof.
  induction l as [|x l IH]; cbn [EconomicModel.pushAll]; [contradiction|].
  destruct (f x) as [roi|] eqn:E.
  - intros [->|H].
    + exists x. split; [left; reflexivity|exact E].
    + destruct (IH H) as (y & Hy & Ey). exists y. split; [right; exact Hy|exact Ey].
  - intros H. destruct (IH H) as (y & Hy & Ey). exists y. split; [right; exact Hy|exact Ey].
Qed.

(** Every candidate of the model is the result of one of the two ROI
    calculations: its cost passed the guard, and its payback time is that of
    its cost and rate delta. *)
Lemma getAllCandidates_inv (gameState : GameState) (c : Candidate.t) :
  In c (EconomicModel.getAllCandidates gameState) ->
  ((Candidate.type c = building /\ Candidate.currentOwned c <> None) \/
   (Candidate.type c = upgrade /\ Candidate.currentOwned c = None)) /\
  (Candidate.cost c <=? 0) = false /\
  Candidate.roiTime c =
    EconomicModel._calculateROITime (Candidate.cost c) (Candidate.deltaCPS c).
Proof.
  unfold EconomicModel.getAllCandidates. intros H.
  apply in_app_or in H as [H|H]; apply pushAll_In in H as (x & _ & E).
  - unfold EconomicModel.calculateBuildingROI in E.
    destruct (Building.cost x <=? 0) eqn:Ec; [discriminate|].
    destruct (Building.baseCPS x <? 0); [discriminate|].
    cbn [orb] in E. injection E as <-. cbn.
    split; [left; split; [reflexivity|discriminate]|]. split; [exact Ec|reflexivity].
  - unfold EconomicModel.calculateUpgradeROI in E.
    destruct (Upgrade.cost x <=? 0) eqn:Ec; [discriminate|].
    injection E as <-. cbn.
    split; [right; split; reflexivity|]. split; [exact Ec|reflexivity].
Qed.

Lemma calculateROITime_safe (cost deltaCPS : float) :
  is_nan (EconomicModel._calculateROITime cost deltaCPS) = false /\
  (EconomicModel._calculateROITime cost deltaCPS <? 0) = false.
Proof.
  unfold EconomicModel._calculateROITime.
  destruct (deltaCPS <? Constants.MIN_VALID_DELTA_CPS); [split; reflexivity|].
  destruct (is_finite (cost / deltaCPS)) eqn:Ef; cbn [negb orb]; [|split; reflexivity].
  destruct (cost / deltaCPS <? 0) eqn:En; [split; reflexivity|].
  split; [apply is_finite_not_nan, Ef|exact En].
Qed.

(** C3. The payback time of a cost and a rate delta is the sentinel
    [+Infinity] when the rate delta is below the minimum meaningful one
    (0.001); otherwise it is the quotient [cost / rateDelta], replaced by
    [+Infinity] whenever the quotient is not finite or is negative.  Hence
    it is never [NaN] and never negative, for any cost and rate delta, and in
    particular for every candidate that the economic model emits. *)
Theorem payback_time_is_guarded :
  (forall cost deltaCPS,
      (deltaCPS <? Constants.MIN_VALID_DELTA_CPS) = true ->
      EconomicModel._calculateROITime cost deltaCPS = infinity) /\
  (forall cost deltaCPS,
      (deltaCPS <? Constants.MIN_VALID_DELTA_CPS) = false ->
      is_finite (cost / deltaCPS) = true -> (cost / deltaCPS <? 0) = false ->
      EconomicModel._calculateROITime cost deltaCPS = cost / deltaCPS) /\
  (forall cost deltaCPS,
      (deltaCPS <? Constants.MIN_VALID_DELTA_CPS) = false ->
      is_finite (cost / deltaCPS) = false \/ (cost / deltaCPS <? 0) = true ->
      EconomicModel._calculateROITime cost deltaCPS = infinity) /\
  (forall cost deltaCPS,
      is_nan (EconomicModel._calculateROITime cost deltaCPS) = false /\
      (EconomicModel._calculateROITime cost deltaCPS <? 0) = false) /\
  (forall gameState c,
      In c (EconomicModel.getAllCandidates gameState) ->
      is_nan (Candidate.roiTime c) = false /\ (Candidate.roiTime c <? 0) = false).
Proof.
  repeat split.
  - intros cost deltaCPS H. unfold EconomicModel._calculateROITime. rewrite H. reflexivity.
  - intros cost deltaCPS H Hf Hn. unfold EconomicModel._calculateROITime.
    rewrite H, Hf, Hn. reflexivity.
  - intros cost deltaCPS H [Hf|Hn]; unfold EconomicModel._calculateROITime; rewrite H.
    + rewrite Hf. reflexivity.
    + rewrite Hn, orb_true_r. reflexivity.
  - apply calculateROITime_safe.
  - apply calculateROITime_safe.
  - apply getAllCandidates_inv in H as (_ & _ & ->). apply calculateROITime_safe.
  - apply getAllCandidates_inv in H as (_ & _ & ->). apply calculateROITime_safe.
Qed.

(** The guard at work: a cursor that costs 15 and yields 0.1 pays back in
    150 seconds; the candidate of the idle game is that cursor. *)
Lemma payback_time_is_guarded_witness :
  EconomicModel._calculateROITime 15 0 = infinity /\
  EconomicModel._calculateROITime 15 0.1 = 150 /\
  EconomicModel._calculateROITime (-15) 0.1 = infinity.
Proof.
  destruct payback_time_is_guarded as (H1 & H2 & H3 & _).
  split; [|split].
  - apply H1. reflexivity.
  - rewrite H2; reflexivity.
  - apply H3; [reflexivity|right; reflexivity].
Defined.

(** ** The Greedy policy *)

(** C6. For every candidate sequence the Greedy policy returns a result,
    and no candidate of the result has a payback time that is not finite, is
    at most 0, or exceeds the ceiling [MAX_REASONABLE_ROI] (3600 seconds). *)
Theorem greedy_filter_soundness (candidates : list Candidate.t) :
  exists ranked,
    GreedyStrategy.evaluate candidates = Js.Ok ranked /\
    Forall Spec.withinCeiling ranked.
Proof.
  rewrite GreedyStrategy_evaluate_eq. eexists. split; [reflexivity|].
  apply Forall_forall. intros c Hc.
  apply sort_In in Hc.
  apply filter_In in Hc as [Hc _].
  apply filter_In in Hc as [Hc Hceil].
  apply filter_In in Hc as [_ Hvalid].
  apply validPayback_inv in Hvalid as (Hf & _ & Hle & Hpos).
  unfold Spec.withinCeiling. auto.
Qed.

(** C10. Every candidate that the economic model emits for a normalized
    state passes the structural check: the six required properties are in
    it, its type is building or upgrade, and its cost passes the test of
    positivity: it is not [<= 0], that is, it is positive whenever it is not
    [NaN] (the costs of the data model are numbers that are at least 0).
    Hence the structural filter of the Greedy policy removes no element of
    the model's output. *)
Theorem model_candidates_are_structurally_valid (gameState : GameState) :
  Forall (fun c =>
            Validators.hasAll Validators.requiredProps (candidateValue c) = Js.Ok true /\
            (Candidate.type c = building \/ Candidate.type c = upgrade) /\
            (Candidate.cost c <=? 0) = false /\
            (is_nan (Candidate.cost c) = false -> (0 <? Candidate.cost c) = true) /\
            Validators.isValidCandidate (candidateValue c) = Js.Ok true)
         (EconomicModel.getAllCandidates gameState) /\
  JsArray.filter (fun c => Validators.isValidCandidate (candidateValue c))
                 (EconomicModel.getAllCandidates gameState)
  = Js.Ok (EconomicModel.getAllCandidates gameState).
Proof.
  assert (H : forall c, In c (EconomicModel.getAllCandidates gameState) ->
                        Spec.validStructure c = true).
  { intros c Hc. apply getAllCandidates_inv in Hc as (_ & Hcost & _).
    unfold Spec.validStructure. rewrite Hcost. reflexivity. }
  split.
  - apply Forall_forall. intros c Hc. specialize (H c Hc).
    rewrite isValidCandidate_candidateValue, H.
    unfold Spec.validStructure in H. apply negb_true_iff in H.
    split; [reflexivity|]. split; [|split; [assumption|split; [|reflexivity]]].
    + destruct (Candidate.type c); [left|right]; reflexivity.
    + intros Hn. apply positive_of_not_leb; assumption.
  - rewrite (filter_Ok _ Spec.validStructure) by (intros; apply isValidCandidate_candidateValue).
    f_equal. apply forallb_filter_id. apply forallb_forall. exact H.
Qed.

(** ** The upgrade estimator *)

(** C1. The upgrade estimator tests the six heuristics in the priority order
    of the specification (explicit multiplier, percentage boost, flat
    per-click bonus, bare building reference, click or cursor keyword,
    unknown fallback) on the lowercase description, and the first that
    matches gives the estimate.  In particular, when the explicit-multiplier
    pattern matches but the building it refers to is not in the snapshot,
    the estimate is the one of the later heuristics. *)
Theorem upgrade_estimator_priority_order :
  (forall gameState u description,
      Spec.firstMatch Spec.heuristics gameState (JsString.toLowerCase description)
      = Some (EconomicModel._estimateUpgradeCPS gameState u description)) /\
  (forall gameState u description m,
      RegExp.exec Constants.UPGRADE_PATTERNS.MULTIPLIER (JsString.toLowerCase description)
      = Some m ->
      EconomicModel._findAffectedBuilding gameState (JsString.toLowerCase description)
      = None ->
      Spec.firstMatch Spec.laterHeuristics gameState (JsString.toLowerCase description)
      = Some (EconomicModel._estimateUpgradeCPS gameState u description)).
Proof.
  split.
  - intros gameState u description.
    unfold EconomicModel._estimateUpgradeCPS, Spec.heuristics, Spec.laterHeuristics.
    cbn [Spec.firstMatch].
    unfold Spec.explicitMultiplier, Spec.percentageBoost, Spec.flatPerClickBonus,
      Spec.bareBuildingReference, Spec.clickKeyword, Spec.unknownFallback.
    set (desc := JsString.toLowerCase description).
    destruct (RegExp.exec Constants.UPGRADE_PATTERNS.MULTIPLIER desc) as [m1|];
      destruct (EconomicModel._findAffectedBuilding gameState desc) as [b|];
      try reflexivity;
      destruct (RegExp.exec Constants.UPGRADE_PATTERNS.PERCENTAGE_BOOST desc) as [m2|];
      try reflexivity;
      destruct (RegExp.exec Constants.UPGRADE_PATTERNS.FLAT_COOKIE_BONUS desc) as [m3|];
      try reflexivity;
      destruct (JsString.includes desc "click" || JsString.includes desc "cursor");
      reflexivity.
  - intros gameState u description m Hm Hb.
    unfold EconomicModel._estimateUpgradeCPS, Spec.laterHeuristics.
    cbn [Spec.firstMatch].
    unfold Spec.percentageBoost, Spec.flatPerClickBonus,
      Spec.bareBuildingReference, Spec.clickKeyword, Spec.unknownFallback.
    rewrite Hm, Hb.
    destruct (RegExp.exec Constants.UPGRADE_PATTERNS.PERCENTAGE_BOOST _) as [m2|];
      try reflexivity;
      destruct (RegExp.exec Constants.UPGRADE_PATTERNS.FLAT_COOKIE_BONUS _) as [m3|];
      try reflexivity;
      destruct (JsString.includes _ "click" || JsString.includes _ "cursor");
      reflexivity.
Qed.

(** Farms made twice as efficient, in a game that has no farm: the flat
    bonus of 10 cookies per click gives the estimate, 15. *)
Lemma upgrade_estimator_priority_order_witness :
  Spec.firstMatch Spec.laterHeuristics Examples.idleState
    (JsString.toLowerCase (Spec.descriptionOf Examples.farmUpgrade))
  = Some (EconomicModel._estimateUpgradeCPS Examples.idleState Examples.farmUpgrade
            (Spec.descriptionOf Examples.farmUpgrade)) /\
  EconomicModel._estimateUpgradeCPS Examples.idleState Examples.farmUpgrade
    (Spec.descriptionOf Examples.farmUpgrade) = 15.
Proof.
  split.
  - eapply (proj2 upgrade_estimator_priority_order); reflexivity.
  - reflexivity.
Defined.

(** ** The strategy engine *)

Lemma GreedyStrategy_evaluate_returns (candidates : list Candidate.t) :
  exists ranked, GreedyStrategy.evaluate candidates = Js.Ok ranked.
Proof. rewrite GreedyStrategy_evaluate_eq. eexists. reflexivity. Qed.

(** C9. When the active policy of the engine is not the Greedy policy and
    its [evaluate] throws or returns a value that is not an array,
    [recommend] returns what the Greedy policy gives for the candidates (the
    array that the failed policy was given, as that policy left it: the same
    sequence when the policy does not change its argument) and makes the
    Greedy policy the active one; the error does not reach the caller.  An
    error reaches the caller only when the Greedy policy itself fails: as
    the active policy, or as the fallback. *)
Theorem recommend_falls_back_to_greedy
  (engine : StrategyEngine.t) (candidates : list Candidate.t) :
  let active := StrategyEngine.strategy engine in
  let outcome := fst (StrategyEngine.evaluate active candidates) in
  let candidates' := snd (StrategyEngine.evaluate active candidates) in
  (Spec.failed outcome -> StrategyEngine.instanceofGreedy active = false ->
   fst (StrategyEngine.recommend engine candidates) = GreedyStrategy.evaluate candidates' /\
   (exists ranked, fst (StrategyEngine.recommend engine candidates) = Js.Ok ranked) /\
   StrategyEngine.strategy (snd (StrategyEngine.recommend engine candidates))
   = StrategyEngine.newGreedyStrategy) /\
  (Spec.failed outcome -> StrategyEngine.instanceofGreedy active = false ->
   candidates' = candidates ->
   fst (StrategyEngine.recommend engine candidates) = GreedyStrategy.evaluate candidates) /\
  (forall e, fst (StrategyEngine.recommend engine candidates) = Js.Throw e ->
   (StrategyEngine.instanceofGreedy active = true /\ Spec.failed outcome) \/
   GreedyStrategy.evaluate candidates' = Js.Throw e).
Proof.
  intros active outcome candidates'.
  assert (Hfall : Spec.failed outcome -> StrategyEngine.instanceofGreedy active = false ->
                  StrategyEngine.recommend engine candidates
                  = (GreedyStrategy.evaluate candidates',
                     {| StrategyEngine.strategy := StrategyEngine.newGreedyStrategy |})).
  { subst outcome candidates' active. unfold StrategyEngine.recommend.
    destruct (StrategyEngine.evaluate (StrategyEngine.strategy engine) candidates)
      as [[[recommendations|]|e] left]; cbn [fst snd Spec.failed Js.bind];
      intros Hf Hg; try contradiction; rewrite Hg; reflexivity. }
  split; [|split].
  - intros Hf Hg. rewrite (Hfall Hf Hg). cbn [fst snd].
    split; [reflexivity|]. split; [apply GreedyStrategy_evaluate_returns|reflexivity].
  - intros Hf Hg Hsame. rewrite (Hfall Hf Hg), Hsame. reflexivity.
  - intros e. subst outcome candidates' active. unfold StrategyEngine.recommend.
    destruct (StrategyEngine.evaluate (StrategyEngine.strategy engine) candidates)
      as [[[recommendations|]|e'] left]; cbn [fst snd Spec.failed Js.bind].
    + discriminate.
    + destruct (StrategyEngine.instanceofGreedy (StrategyEngine.strategy engine));
        cbn [negb fst]; intros H; [left; split; [reflexivity|exact I]|right; exact H].
    + destruct (StrategyEngine.instanceofGreedy (StrategyEngine.strategy engine));
        cbn [negb fst]; intros H; [left; split; [reflexivity|exact I]|right; exact H].
Qed.

(** A policy that throws, on two candidates: the engine answers with the
    Greedy ranking of the two. *)
Lemma recommend_falls_back_to_greedy_witness :
  fst (StrategyEngine.recommend
         {| StrategyEngine.strategy := Examples.brokenStrategy |}
         [Examples.candidate "Farm" 200 1; Examples.candidate "Cursor" 150 1])
  = Js.Ok [Examples.candidate "Cursor" 150 1; Examples.candidate "Farm" 200 1].
Proof.
  rewrite (proj1 (proj2 (recommend_falls_back_to_greedy
                           {| StrategyEngine.strategy := Examples.brokenStrategy |}
                           [Examples.candidate "Farm" 200 1;
                            Examples.candidate "Cursor" 150 1])) I eq_refl eq_refl).
  reflexivity.
Defined.

(** ** The validators *)

(** Case analysis on what a validator reads. *)
Ltac validator_cases :=
  repeat (cbn;
          match goal with
          | |- exists b, Js.Ok _ = Js.Ok b => eexists; reflexivity
          | |- context [Js.lookup ?p ?props] => destruct (Js.lookup p props) as [[]|]
          | |- context [if ?c then _ else _] => destruct c
          | |- context [match ?x with _ => _ end] => destruct x
          end).

Lemma isValidGameObject_returns (v : Js.value) :
  exists b, Validators.isValidGameObject v = Js.Ok b.
Proof. unfold Validators.isValidGameObject. destruct v; validator_cases. Qed.

Lemma isValidBuilding_returns (v : Js.value) :
  exists b, Validators.isValidBuilding v = Js.Ok b.
Proof. unfold Validators.isValidBuilding. destruct v; validator_cases. Qed.

Lemma isValidUpgrade_returns (v : Js.value) :
  exists b, Validators.isValidUpgrade v = Js.Ok b.
Proof. unfold Validators.isValidUpgrade. destruct v; validator_cases. Qed.

Lemma isValidROI_returns (v : Js.value) :
  exists b, Validators.isValidROI v = Js.Ok b.
Proof. unfold Validators.isValidROI. destruct v; validator_cases. Qed.

Lemma isValidDeltaCPS_returns (v : Js.value) :
  exists b, Validators.isValidDeltaCPS v = Js.Ok b.
Proof. unfold Validators.isValidDeltaCPS. destruct v; validator_cases. Qed.

Lemma isAffordable_returns (cost cookies : Js.value) :
  exists b, Validators.isAffordable cost cookies = Js.Ok b.
Proof. unfold Validators.isAffordable. destruct cost, cookies; validator_cases. Qed.

Lemma isReasonablyAffordable_returns (cost cookies : Js.value) :
  exists b, Validators.isReasonablyAffordable cost cookies = Js.Ok b.
Proof. unfold Validators.isReasonablyAffordable. destruct cost, cookies; validator_cases. Qed.

Lemma isValidGameState_returns (v : Js.value) :
  exists b, Validators.isValidGameState v = Js.Ok b.
Proof. unfold Validators.isValidGameState. destruct v; validator_cases. Qed.

Lemma isValidCandidate_returns_on_objects (k : Js.kind) (props : list (string * Js.value)) :
  exists b, Validators.isValidCandidate (Js.Object k props) = Js.Ok b.
Proof. unfold Validators.isValidCandidate. validator_cases. Qed.

(** C8. Eight of the nine validators return a boolean for every value,
    whatever its type.  [isValidCandidate] does so for the values that are
    falsy and for the objects, but it throws a [TypeError] for every other
    value: a number that is not zero, a string that is not empty, [true];
    it tests these with the [in] operator, which accepts objects only. *)
Theorem validators_return_booleans_but_isValidCandidate :
  (forall v, exists b, Validators.isValidGameObject v = Js.Ok b) /\
  (forall v, exists b, Validators.isValidBuilding v = Js.Ok b) /\
  (forall v, exists b, Validators.isValidUpgrade v = Js.Ok b) /\
  (forall v, exists b, Validators.isValidROI v = Js.Ok b) /\
  (forall v, exists b, Validators.isValidDeltaCPS v = Js.Ok b) /\
  (forall cost cookies, exists b, Validators.isAffordable cost cookies = Js.Ok b) /\
  (forall cost cookies, exists b, Validators.isReasonablyAffordable cost cookies = Js.Ok b) /\
  (forall v, exists b, Validators.isValidGameState v = Js.Ok b) /\
  (forall v, Js.truthy v = false \/ Js.typeof v = "object" \/ Js.typeof v = "function" ->
             exists b, Validators.isValidCandidate v = Js.Ok b) /\
  (forall v, Js.truthy v = true -> Js.typeof v <> "object" -> Js.typeof v <> "function" ->
             Validators.isValidCandidate v = Js.Throw Js.TypeError) /\
  Validators.isValidCandidate (Js.Num 5) = Js.Throw Js.TypeError /\
  Validators.isValidCandidate (Js.Str "Cursor") = Js.Throw Js.TypeError.
Proof.
  repeat match goal with |- _ /\ _ => split end.
  - apply isValidGameObject_returns.
  - apply isValidBuilding_returns.
  - apply isValidUpgrade_returns.
  - apply isValidROI_returns.
  - apply isValidDeltaCPS_returns.
  - apply isAffordable_returns.
  - apply isReasonablyAffordable_returns.
  - apply isValidGameState_returns.
  - intros v [H|[H|H]].
    + unfold Validators.isValidCandidate. rewrite H. eexists. reflexivity.
    + destruct v as [| |b|n|s|k props]; try discriminate.
      * eexists. reflexivity.
      * apply isValidCandidate_returns_on_objects.
    + destruct v as [| |b|n|s|k props]; try discriminate.
      apply isValidCandidate_returns_on_objects.
  - intros v Ht Ho Hf. unfold Validators.isValidCandidate. rewrite Ht.
    destruct v as [| |b|n|s|[] props]; try discriminate; try reflexivity;
      exfalso; (apply Ho; reflexivity) || (apply Hf; reflexivity).
  - reflexivity.
  - reflexivity.
Qed.

Lemma is_nan_false_of_eqb_l (x y : float) : (x =? y) = true -> is_nan x = false.
Proof.
  intros H. destruct (is_nan x) eqn:E; [|reflexivity].
  rewrite FloatAxioms.eqb_spec, (Prim2SF_nan x E) in H. discriminate.
Qed.

Lemma is_nan_false_of_eqb_r (x y : float) : (x =? y) = true -> is_nan y = false.
Proof.
  intros H. destruct (is_nan y) eqn:E; [|reflexivity].
  rewrite FloatAxioms.eqb_spec, (Prim2SF_nan y E) in H.
  destruct (Prim2SF x); discriminate.
Qed.

(** ** Rate deltas *)

(** A payback time that is finite comes from a rate delta that is at least
    the minimum meaningful one, hence positive. *)
Lemma finite_payback_inv (cost deltaCPS : float) :
  is_finite (EconomicModel._calculateROITime cost deltaCPS) = true ->
  is_nan deltaCPS = false /\
  (Constants.MIN_VALID_DELTA_CPS <=? deltaCPS) = true /\
  (0 <? deltaCPS) = true.
Proof.
  unfold EconomicModel._calculateROITime.
  destruct (deltaCPS <? Constants.MIN_VALID_DELTA_CPS) eqn:Emin; [discriminate|].
  destruct (is_finite (cost / deltaCPS)) eqn:Ef; cbn [negb orb]; [|discriminate].
  intros _.
  assert (Hn : is_nan deltaCPS = false).
  { destruct (is_nan deltaCPS) eqn:E; [|reflexivity].
    apply is_finite_not_nan in Ef. rewrite (div_nan_r cost deltaCPS E) in Ef. discriminate. }
  rewrite ltb_key in Emin by (assumption || reflexivity). apply Z.ltb_ge in Emin.
  assert (Hmin : (0 < fkey Constants.MIN_VALID_DELTA_CPS)%Z) by reflexivity.
  split; [exact Hn|]. split.
  - rewrite leb_key by (assumption || reflexivity). apply Z.leb_le. exact Emin.
  - rewrite ltb_key by (assumption || reflexivity). apply Z.ltb_lt.
    rewrite fkey_zero. lia.
Qed.

(** C2, as the code has it.  For every upgrade that yields a candidate, the
    rate delta of the candidate is the estimate of the upgrade estimator.  It
    is strictly positive (at least 0.001) whenever the payback time of the
    candidate is finite; when the description matches no pattern it is the
    global rate times 0.02, which is zero when the rate is zero. *)
Theorem upgrade_rate_delta
  (gameState : GameState) (u : Upgrade.t) (c : Candidate.t) :
  EconomicModel.calculateUpgradeROI gameState u = Some c ->
  Candidate.deltaCPS c
  = EconomicModel._estimateUpgradeCPS gameState u (Spec.descriptionOf u) /\
  (is_finite (Candidate.roiTime c) = true ->
   (Constants.MIN_VALID_DELTA_CPS <=? Candidate.deltaCPS c) = true /\
   (0 <? Candidate.deltaCPS c) = true) /\
  (Spec.matchesNoPattern gameState (JsString.toLowerCase (Spec.descriptionOf u)) ->
   Candidate.deltaCPS c
   = cookiesPerSecond gameState * Constants.UPGRADE_ESTIMATES.CONSERVATIVE_BOOST).
Proof.
  unfold EconomicModel.calculateUpgradeROI. fold (Spec.descriptionOf u).
  destruct (Upgrade.cost u <=? 0); [discriminate|].
  intros E. injection E as <-. cbn [Candidate.deltaCPS Candidate.roiTime].
  split; [reflexivity|]. split.
  - intros Hf. apply finite_payback_inv in Hf as (_ & H1 & H2). split; assumption.
  - intros (H1 & H2 & H3 & H4 & H5). unfold EconomicModel._estimateUpgradeCPS.
    rewrite H1, H2, H3, H4, H5. reflexivity.
Qed.

(** An upgrade of unknown effect, at 500 cookies per second: 10 more. *)
Lemma upgrade_rate_delta_witness :
  (0 <? EconomicModel._estimateUpgradeCPS
          {| cookies := 0; cookiesPerSecond := 500; buildings := []; upgrades := [] |}
          Examples.opaqueUpgrade (Spec.descriptionOf Examples.opaqueUpgrade)) = true.
Proof.
  pose proof (upgrade_rate_delta
                {| cookies := 0; cookiesPerSecond := 500; buildings := []; upgrades := [] |}
                Examples.opaqueUpgrade _ eq_refl) as (_ & H & _).
  exact (proj2 (H eq_refl)).
Defined.

(** C2, as stated, fails: in a game whose rate is zero, an upgrade whose
    description matches no pattern yields a candidate whose rate delta is
    zero. *)
Lemma unknown_upgrade_at_rate_zero :
  exists c,
    EconomicModel.calculateUpgradeROI Examples.idleState Examples.opaqueUpgrade = Some c /\
    Spec.matchesNoPattern Examples.idleState
      (JsString.toLowerCase (Spec.descriptionOf Examples.opaqueUpgrade)) /\
    Candidate.deltaCPS c = 0 /\
    (0 <? Candidate.deltaCPS c) = false.
Proof.
  eexists. split; [reflexivity|]. repeat split; reflexivity.
Qed.

(** ** Buildings *)

Lemma multiplier_of_count (b : Building.t) :
  (0 <=? Building.baseCPS b) = true -> Spec.isCount (Building.owned b) ->
  (if (0 <? Building.owned b) && (0 <? Building.totalCPS b) then
     if 0 <? Building.baseCPS b * Building.owned b
     then Building.totalCPS b / (Building.baseCPS b * Building.owned b) else 1
   else 1) = Spec.multiplier b.
Proof.
  intros Hbase Hcount. unfold Spec.multiplier.
  destruct (0 <? Building.owned b) eqn:Eo; cbn [andb]; [|reflexivity].
  destruct (0 <? Building.totalCPS b); cbn [andb]; [|reflexivity].
  assert (Hone : (1 <=? Building.owned b) = true).
  { destruct Hcount as [Hz|H1]; [|exact H1].
    pose proof (is_nan_false_of_eqb_l _ _ Hz) as Hn.
    rewrite eqb_key in Hz by (assumption || reflexivity).
    rewrite ltb_key in Eo by (assumption || reflexivity).
    apply Z.eqb_eq in Hz. apply Z.ltb_lt in Eo. rewrite fkey_zero in *. lia. }
  pose proof (is_nan_false_of_leb_r _ _ Hbase) as Hn.
  destruct (0 <? Building.baseCPS b) eqn:Eb.
  - rewrite (mul_pos _ _ Eb Hone). reflexivity.
  - rewrite mul_zero_l; [reflexivity|].
    rewrite leb_key in Hbase by (assumption || reflexivity).
    rewrite ltb_key in Eb by (assumption || reflexivity).
    rewrite eqb_key by (assumption || reflexivity).
    apply Z.leb_le in Hbase. apply Z.ltb_ge in Eb. apply Z.eqb_eq. lia.
Qed.

(** C4. A building whose cost is positive and whose base rate is not
    negative (its owned count being zero or at least one, as every count is)
    yields a candidate whose rate delta is the base rate times the
    multiplier: the total rate over base rate times owned count when owned
    count, total rate and base rate are all positive, and 1 otherwise.  In
    particular a building of which none is owned yields its base rate
    exactly. *)
Theorem building_rate_delta (b : Building.t) :
  (0 <? Building.cost b) = true ->
  (0 <=? Building.baseCPS b) = true ->
  Spec.isCount (Building.owned b) ->
  exists c,
    EconomicModel.calculateBuildingROI b = Some c /\
    Candidate.cost c = Building.cost b /\
    Candidate.deltaCPS c = Building.baseCPS b * Spec.multiplier b /\
    ((Building.owned b =? 0) = true -> Spec.multiplier b = 1 /\
                                       Candidate.deltaCPS c = Building.baseCPS b).
Proof.
  intros Hcost Hbase Hcount. unfold EconomicModel.calculateBuildingROI.
  rewrite (not_leb_of_positive _ Hcost), (not_ltb_of_nonnegative _ Hbase).
  cbn [orb]. eexists. split; [reflexivity|]. cbn [Candidate.cost Candidate.deltaCPS].
  rewrite (multiplier_of_count b Hbase Hcount).
  split; [reflexivity|]. split; [reflexivity|].
  intros Hzero.
  assert (Hm : Spec.multiplier b = 1).
  { unfold Spec.multiplier.
    pose proof (is_nan_false_of_eqb_l _ _ Hzero) as Hn.
    rewrite eqb_key in Hzero by (assumption || reflexivity).
    rewrite (ltb_key 0 (Building.owned b)) by (assumption || reflexivity).
    apply Z.eqb_eq in Hzero. rewrite Hzero. reflexivity. }
  split; [exact Hm|]. rewrite Hm. apply mul_one.
Qed.

(** Five grandmas that yield 6 cookies per second in all, at a base rate of
    1 each: the sixth yields 1.2. *)
Lemma building_rate_delta_witness :
  exists c,
    EconomicModel.calculateBuildingROI Examples.grandmas = Some c /\
    Candidate.deltaCPS c = 1.2.
Proof.
  destruct (building_rate_delta Examples.grandmas eq_refl eq_refl (or_intror eq_refl))
    as (c & Hc & _ & Hdelta & _).
  exists c. split; [exact Hc|]. rewrite Hdelta. reflexivity.
Defined.

(** ** The order of a ranking *)

Lemma StronglySorted_impl {A} (R R' : A -> A -> Prop) (l : list A) :
  (forall x y, In x l -> In y l -> R x y -> R' x y) ->
  StronglySorted R l -> StronglySorted R' l.
Proof.
  intros H S. induction S as [|x l S IH Hx]; constructor.
  - apply IH. intros y z Hy Hz. apply H; right; assumption.
  - apply Forall_forall. intros y Hy.
    apply H; [left; reflexivity|right; exact Hy|].
    exact (proj1 (Forall_forall _ _) Hx y Hy).
Qed.

Lemma ForallOrdPairs_filter {A} (R : A -> A -> Prop) (q : A -> bool) (l : list A) :
  ForallOrdPairs R l -> ForallOrdPairs R (filter q l).
Proof.
  induction 1 as [|x l Hx Hl IH]; cbn [filter]; [constructor|].
  destruct (q x); [|exact IH].
  constructor; [|exact IH].
  apply Forall_forall. intros y Hy. apply filter_In in Hy as [Hy _].
  exact (proj1 (Forall_forall _ _) Hx y Hy).
Qed.

(** The comparison function of the Greedy policy, on candidates whose
    payback times are numbers: the payback times decide when they differ. *)
Lemma greedy_comparefn_pos (a b : Candidate.t) :
  is_nan (Candidate.roiTime a) = false -> is_nan (Candidate.roiTime b) = false ->
  (0 <? GreedyStrategy.comparefn a b) =
  if (fkey (Candidate.roiTime a) =? fkey (Candidate.roiTime b))%Z
  then 0 <? Candidate.deltaCPS b - Candidate.deltaCPS a
  else (fkey (Candidate.roiTime b) <? fkey (Candidate.roiTime a))%Z.
Proof.
  intros Ha Hb. unfold GreedyStrategy.comparefn.
  rewrite eqb_key by assumption.
  destruct (fkey (Candidate.roiTime a) =? fkey (Candidate.roiTime b))%Z; cbn [negb].
  - reflexivity.
  - rewrite sub_pos, ltb_key by assumption. reflexivity.
Qed.

Lemma relaxed_comparefn_pos (a b : Candidate.t) :
  is_nan (Candidate.roiTime a) = false -> is_nan (Candidate.roiTime b) = false ->
  (0 <? RelaxedStrategy.comparefn a b)
  = (fkey (Candidate.roiTime b) <? fkey (Candidate.roiTime a))%Z.
Proof.
  intros Ha Hb. unfold RelaxedStrategy.comparefn.
  rewrite sub_pos, ltb_key by assumption. reflexivity.
Qed.

Lemma greedy_sorted_by_payback (l : list Candidate.t) :
  Forall (fun c => is_nan (Candidate.roiTime c) = false) l ->
  StronglySorted Spec.paybackAscending (JsArray.sort GreedyStrategy.comparefn l).
Proof.
  intros Hl.
  apply StronglySorted_impl
    with (R := fun a b => (fkey (Candidate.roiTime a) <= fkey (Candidate.roiTime b))%Z).
  - intros x y Hx Hy Hxy. apply sort_In in Hx, Hy.
    unfold Spec.paybackAscending.
    rewrite leb_key by (apply (proj1 (Forall_forall _ _) Hl); assumption).
    apply Z.leb_le. exact Hxy.
  - apply sort_sorted with (P := fun c => is_nan (Candidate.roiTime c) = false);
      [intros; lia| | |exact Hl].
    + intros x y Hx Hy. rewrite greedy_comparefn_pos by assumption.
      destruct (Z.eqb_spec (fkey (Candidate.roiTime x)) (fkey (Candidate.roiTime y))); [lia|].
      intros H. apply Z.ltb_lt in H. lia.
    + intros x y Hx Hy. rewrite greedy_comparefn_pos by assumption.
      destruct (Z.eqb_spec (fkey (Candidate.roiTime x)) (fkey (Candidate.roiTime y))); [lia|].
      intros H. apply Z.ltb_ge in H. lia.
Qed.

Lemma relaxed_sorted_by_payback (l : list Candidate.t) :
  Forall (fun c => is_nan (Candidate.roiTime c) = false) l ->
  StronglySorted Spec.paybackAscending (JsArray.sort RelaxedStrategy.comparefn l).
Proof.
  intros Hl.
  apply StronglySorted_impl
    with (R := fun a b => (fkey (Candidate.roiTime a) <= fkey (Candidate.roiTime b))%Z).
  - intros x y Hx Hy Hxy. apply sort_In in Hx, Hy.
    unfold Spec.paybackAscending.
    rewrite leb_key by (apply (proj1 (Forall_forall _ _) Hl); assumption).
    apply Z.leb_le. exact Hxy.
  - apply sort_sorted with (P := fun c => is_nan (Candidate.roiTime c) = false);
      [intros; lia| | |exact Hl].
    + intros x y Hx Hy. rewrite relaxed_comparefn_pos by assumption.
      intros H. apply Z.ltb_lt in H. lia.
    + intros x y Hx Hy. rewrite relaxed_comparefn_pos by assumption.
      intros H. apply Z.ltb_ge in H. lia.
Qed.

Lemma greedy_sorted_by_delta (l : list Candidate.t) :
  Forall (fun c => is_nan (Candidate.roiTime c) = false /\
                   is_nan (Candidate.deltaCPS c) = false) l ->
  StronglySorted Spec.tiesByDeltaDescending (JsArray.sort GreedyStrategy.comparefn l).
Proof.
  intros Hl.
  apply StronglySorted_impl
    with (R := fun a b =>
                 (fkey (Candidate.roiTime a) < fkey (Candidate.roiTime b) \/
                  (fkey (Candidate.roiTime a) = fkey (Candidate.roiTime b) /\
                   fkey (Candidate.deltaCPS b) <= fkey (Candidate.deltaCPS a)))%Z).
  - intros x y Hx Hy Hxy. apply sort_In in Hx, Hy.
    destruct (proj1 (Forall_forall _ _) Hl x Hx) as [Hrx Hdx].
    destruct (proj1 (Forall_forall _ _) Hl y Hy) as [Hry Hdy].
    unfold Spec.tiesByDeltaDescending.
    rewrite eqb_key, leb_key by assumption.
    intros Heq. apply Z.eqb_eq in Heq. apply Z.leb_le. lia.
  - apply sort_sorted
      with (P := fun c => is_nan (Candidate.roiTime c) = false /\
                          is_nan (Candidate.deltaCPS c) = false);
      [intros; lia| | |exact Hl].
    + intros x y [Hrx Hdx] [Hry Hdy]. rewrite greedy_comparefn_pos by assumption.
      destruct (Z.eqb_spec (fkey (Candidate.roiTime x)) (fkey (Candidate.roiTime y))).
      * rewrite sub_pos, ltb_key by assumption. intros H. apply Z.ltb_lt in H. lia.
      * intros H. apply Z.ltb_lt in H. lia.
    + intros x y [Hrx Hdx] [Hry Hdy]. rewrite greedy_comparefn_pos by assumption.
      destruct (Z.eqb_spec (fkey (Candidate.roiTime x)) (fkey (Candidate.roiTime y))).
      * rewrite sub_pos, ltb_key by assumption. intros H. apply Z.ltb_ge in H. lia.
      * intros H. apply Z.ltb_ge in H. lia.
Qed.

Lemma filter_validPayback_numbers (l : list Candidate.t) :
  Forall (fun c => is_nan (Candidate.roiTime c) = false) (filter Spec.validPayback l).
Proof.
  apply Forall_forall. intros c Hc. apply filter_In in Hc as [_ Hc].
  apply validPayback_inv in Hc as (_ & Hn & _). exact Hn.
Qed.

Lemma Forall_filter {A} (P : A -> Prop) (q : A -> bool) (l : list A) :
  Forall P l -> Forall P (filter q l).
Proof.
  intros H. apply Forall_forall. intros x Hx. apply filter_In in Hx as [Hx _].
  exact (proj1 (Forall_forall _ _) H x Hx).
Qed.

(** C5, as the code has it.  For every candidate sequence the Greedy policy
    returns a ranking in which, whenever A precedes B, the payback time of A
    is at most that of B; and, provided no candidate of the ranking has a
    rate delta that is [NaN], whenever moreover the payback times are equal
    the rate delta of A is at least that of B.  The proviso holds of every
    ranking of the candidates of the economic model. *)
Theorem greedy_ranking_order :
  (forall candidates, exists ranked,
      GreedyStrategy.evaluate candidates = Js.Ok ranked /\
      StronglySorted Spec.paybackAscending ranked /\
      (Forall (fun c => is_nan (Candidate.deltaCPS c) = false) ranked ->
       StronglySorted Spec.tiesByDeltaDescending ranked)) /\
  (forall gameState, exists ranked,
      GreedyStrategy.evaluate (EconomicModel.getAllCandidates gameState) = Js.Ok ranked /\
      StronglySorted Spec.paybackAscending ranked /\
      StronglySorted Spec.tiesByDeltaDescending ranked).
Proof.
  assert (Hall : forall candidates, exists ranked,
      GreedyStrategy.evaluate candidates = Js.Ok ranked /\
      StronglySorted Spec.paybackAscending ranked /\
      (Forall (fun c => is_nan (Candidate.deltaCPS c) = false) ranked ->
       StronglySorted Spec.tiesByDeltaDescending ranked)).
  { intros candidates. rewrite GreedyStrategy_evaluate_eq. eexists. split; [reflexivity|].
    set (kept := filter Spec.validStructure
                   (filter Spec.belowCeiling (filter Spec.validPayback candidates))).
    assert (Hkept : Forall (fun c => is_nan (Candidate.roiTime c) = false) kept).
    { unfold kept. do 2 apply Forall_filter. apply filter_validPayback_numbers. }
    split; [apply greedy_sorted_by_payback, Hkept|].
    intros Hdelta. apply greedy_sorted_by_delta.
    apply Forall_forall. intros c Hc. split.
    - exact (proj1 (Forall_forall _ _) Hkept c Hc).
    - apply (proj1 (Forall_forall _ _) Hdelta c). apply sort_In. exact Hc. }
  split; [exact Hall|].
  intros gameState.
  destruct (Hall (EconomicModel.getAllCandidates gameState)) as (ranked & He & Hp & Ht).
  exists ranked. split; [exact He|]. split; [exact Hp|]. apply Ht.
  apply Forall_forall. intros c Hc.
  rewrite GreedyStrategy_evaluate_eq in He. injection He as <-.
  apply sort_In in Hc. apply filter_In in Hc as [Hc _]. apply filter_In in Hc as [Hc _].
  apply filter_In in Hc as [Hc Hvalid].
  apply validPayback_inv in Hvalid as (Hf & _).
  apply getAllCandidates_inv in Hc as (_ & _ & Hroi). rewrite Hroi in Hf.
  apply finite_payback_inv in Hf as (Hn & _). exact Hn.
Qed.

(** Two candidates that pay back in 100 seconds, the larger gain last: the
    ranking puts it first. *)
Lemma greedy_ranking_order_witness :
  GreedyStrategy.evaluate [Examples.candidate "Farm" 100 1; Examples.candidate "Mine" 100 2]
  = Js.Ok [Examples.candidate "Mine" 100 2; Examples.candidate "Farm" 100 1] /\
  StronglySorted Spec.tiesByDeltaDescending
    [Examples.candidate "Mine" 100 2; Examples.candidate "Farm" 100 1].
Proof.
  destruct (proj1 greedy_ranking_order
              [Examples.candidate "Farm" 100 1; Examples.candidate "Mine" 100 2])
    as (ranked & He & _ & Ht).
  assert (E : GreedyStrategy.evaluate
                [Examples.candidate "Farm" 100 1; Examples.candidate "Mine" 100 2]
              = Js.Ok [Examples.candidate "Mine" 100 2; Examples.candidate "Farm" 100 1])
    by reflexivity.
  split; [exact E|].
  rewrite E in He. injection He as <-.
  apply Ht. repeat constructor.
Defined.

(** C5, as stated, fails: of two candidates that pay back in 100 seconds,
    one with a rate delta that is [NaN] and one with rate delta 2, the
    ranking keeps the first before the second, and [NaN >= 2] is false. *)
Lemma greedy_ties_with_nan_delta :
  GreedyStrategy.evaluate [Examples.candidate "Farm" 100 nan; Examples.candidate "Mine" 100 2]
  = Js.Ok [Examples.candidate "Farm" 100 nan; Examples.candidate "Mine" 100 2] /\
  (Candidate.roiTime (Examples.candidate "Farm" 100 nan)
     =? Candidate.roiTime (Examples.candidate "Mine" 100 2)) = true /\
  (Candidate.deltaCPS (Examples.candidate "Mine" 100 2)
     <=? Candidate.deltaCPS (Examples.candidate "Farm" 100 nan)) = false.
Proof. repeat split; reflexivity. Qed.

(** ** The Relaxed policy *)

(** The sort is stable: an element goes past the elements that the
    comparison puts before it only, so that the elements of a class that
    the comparison never tells apart keep their order. *)
Lemma insert_stable {A} (f : A -> A -> float) (p : A -> bool) (x : A) (l : list A) :
  (forall y, In y l -> (0 <? f x y) = true -> p x = true -> p y = false) ->
  filter p (JsArray.insert f x l) = if p x then x :: filter p l else filter p l.
Proof.
  induction l as [|y l IH]; intros H; cbn [JsArray.insert].
  - reflexivity.
  - destruct (0 <? f x y) eqn:E.
    + cbn [filter]. rewrite IH by (intros z Hz; apply H; right; exact Hz).
      destruct (p x) eqn:Px; [|reflexivity].
      rewrite (H y (or_introl eq_refl) E eq_refl). reflexivity.
    + cbn [filter]. destruct (p x); reflexivity.
Qed.

Lemma sort_stable {A} (f : A -> A -> float) (p : A -> bool) (l : list A) :
  (forall x y, In x l -> In y l -> (0 <? f x y) = true -> p x = true -> p y = false) ->
  filter p (JsArray.sort f l) = filter p l.
Proof.
  induction l as [|x l IH]; intros H; cbn [JsArray.sort]; [reflexivity|].
  rewrite insert_stable.
  - cbn [filter]. rewrite IH by (intros y z Hy Hz; apply H; right; assumption).
    reflexivity.
  - intros y Hy. apply sort_In in Hy. apply H; [left; reflexivity|right; exact Hy].
Qed.

(** The comparison of the Relaxed policy never tells apart two candidates
    of the same payback time. *)
Lemma relaxed_sort_stable (t : float) (l : list Candidate.t) :
  filter (Spec.paysBackIn t) (JsArray.sort RelaxedStrategy.comparefn l)
  = filter (Spec.paysBackIn t) l.
Proof.
  apply sort_stable. unfold Spec.paysBackIn. intros x y _ _ Hpos Hx.
  destruct (Candidate.roiTime y =? t) eqn:Hy; [exfalso|reflexivity].
  pose proof (is_nan_false_of_eqb_l _ _ Hx) as Nx.
  pose proof (is_nan_false_of_eqb_l _ _ Hy) as Ny.
  pose proof (is_nan_false_of_eqb_r _ _ Hx) as Nt.
  rewrite relaxed_comparefn_pos in Hpos by assumption.
  rewrite eqb_key in Hx, Hy by assumption.
  apply Z.eqb_eq in Hx, Hy. apply Z.ltb_lt in Hpos. lia.
Qed.

(** C7, as the code has it.  For every candidate sequence the Relaxed
    policy and the Greedy policy without its time-ceiling filter both return
    a ranking; the two apply the same filters, so that the rankings have the
    same candidates, and both are in ascending order of payback time.  They
    are the same ranking when no two candidates of the sequence have the
    same payback time.  Candidates of equal payback time are left by the
    Relaxed policy in the order of the sequence: for every payback time,
    the candidates of its ranking that pay back in that time are the
    candidates of the sequence that pass the two filters and pay back in
    that time, in the order of the sequence, which need not be the order of
    descending rate deltas. *)
Theorem relaxed_is_greedy_without_ceiling_up_to_ties (candidates : list Candidate.t) :
  exists relaxed greedy,
    RelaxedStrategy.evaluate candidates = Js.Ok relaxed /\
    Spec.greedyWithoutCeiling candidates = Js.Ok greedy /\
    Permutation relaxed greedy /\
    StronglySorted Spec.paybackAscending relaxed /\
    StronglySorted Spec.paybackAscending greedy /\
    (Spec.distinctPaybacks candidates -> relaxed = greedy) /\
    Spec.tiesInInputOrder candidates relaxed.
Proof.
  rewrite RelaxedStrategy_evaluate_eq, greedyWithoutCeiling_eq.
  set (kept := filter Spec.validStructure (filter Spec.validPayback candidates)).
  assert (Hkept : Forall (fun c => is_nan (Candidate.roiTime c) = false) kept).
  { unfold kept. apply Forall_filter, filter_validPayback_numbers. }
  do 2 eexists. split; [reflexivity|]. split; [reflexivity|].
  split; [|split; [|split; [|split]]].
  - apply Permutation_trans with kept;
      [|apply Permutation_sym]; apply sort_Permutation.
  - apply relaxed_sorted_by_payback, Hkept.
  - apply greedy_sorted_by_payback, Hkept.
  - intros Hdistinct. apply sort_ext.
    assert (Hk : Spec.distinctPaybacks kept)
      by (unfold kept; do 2 apply ForallOrdPairs_filter; exact Hdistinct).
    clear - Hk. induction Hk as [|x l Hx Hl IH]; constructor; [|exact IH].
    apply Forall_impl with (2 := Hx). intros y Hxy.
    unfold RelaxedStrategy.comparefn, GreedyStrategy.comparefn. rewrite Hxy. reflexivity.
  - intros t. apply relaxed_sort_stable.
Qed.

(** With payback times of 200 and 150 seconds the two rankings are the
    same; with two candidates that both pay back in 100 seconds the
    Relaxed ranking has them in the order of the sequence. *)
Lemma relaxed_is_greedy_without_ceiling_up_to_ties_witness :
  (exists ranked,
     RelaxedStrategy.evaluate [Examples.candidate "Farm" 200 1; Examples.candidate "Mine" 150 2]
     = Js.Ok ranked /\
     Spec.greedyWithoutCeiling [Examples.candidate "Farm" 200 1; Examples.candidate "Mine" 150 2]
     = Js.Ok ranked) /\
  (exists ranked,
     RelaxedStrategy.evaluate [Examples.candidate "Farm" 100 1; Examples.candidate "Mine" 100 2]
     = Js.Ok ranked /\
     filter (Spec.paysBackIn 100) ranked
     = [Examples.candidate "Farm" 100 1; Examples.candidate "Mine" 100 2]).
Proof.
  split.
  - destruct (relaxed_is_greedy_without_ceiling_up_to_ties
                [Examples.candidate "Farm" 200 1; Examples.candidate "Mine" 150 2])
      as (relaxed & greedy & Hr & Hg & _ & _ & _ & Heq & _).
    exists relaxed. split; [exact Hr|].
    rewrite Heq; [exact Hg|]. repeat constructor.
  - destruct (relaxed_is_greedy_without_ceiling_up_to_ties
                [Examples.candidate "Farm" 100 1; Examples.candidate "Mine" 100 2])
      as (relaxed & greedy & Hr & _ & _ & _ & _ & _ & Hties).
    exists relaxed. split; [exact Hr|]. exact (Hties 100).
Defined.

(** C7, as stated, fails: of two candidates that pay back in 100 seconds,
    with rate deltas 1 and 2 in this order, the Relaxed policy keeps the
    order, and the Greedy policy without its ceiling puts the second
    first. *)
Lemma relaxed_keeps_ties_in_input_order :
  RelaxedStrategy.evaluate [Examples.candidate "Farm" 100 1; Examples.candidate "Mine" 100 2]
  = Js.Ok [Examples.candidate "Farm" 100 1; Examples.candidate "Mine" 100 2] /\
  Spec.greedyWithoutCeiling [Examples.candidate "Farm" 100 1; Examples.candidate "Mine" 100 2]
  = Js.Ok [Examples.candidate "Mine" 100 2; Examples.candidate "Farm" 100 1].
Proof. split; reflexivity. Qed.

(** * Further properties of the code *)

(** ** Signs of products and quotients *)

(** A number that is not below zero: a zero, a positive number, or [NaN]. *)
Lemma not_negative_cases (x : spec_float) :
  SFltb x (S754_zero false) = false <->
  match x with
  | S754_finite s _ _ | S754_infinity s => s = false
  | _ => True
  end.
Proof.
  destruct x as [s|s| |s m e]; cbn; try destruct s; split; intros H;
    (exact I || reflexivity || discriminate).
Qed.

Lemma binary_round_aux_sign (s : bool) (m e : Z) (l : location) :
  match binary_round_aux prec emax s m e l with
  | S754_zero s' | S754_finite s' _ _ | S754_infinity s' => s' = s
  | S754_nan => True
  end.
Proof.
  unfold binary_round_aux.
  destruct (shr_fexp prec emax m e l) as [mrs' e'].
  destruct (shr_fexp prec emax _ e' loc_Exact) as [mrs'' e''].
  destruct (shr_m mrs''); [reflexivity| |exact I].
  destruct (e'' <=? emax - prec)%Z; reflexivity.
Qed.

Lemma SFmul_not_negative (x y : spec_float) :
  SFltb x (S754_zero false) = false -> SFltb y (S754_zero false) = false ->
  SFltb (SFmul prec emax x y) (S754_zero false) = false.
Proof.
  rewrite !not_negative_cases. intros Hx Hy.
  destruct x as [sx|sx| |sx mx ex], y as [sy|sy| |sy my ey]; cbn [SFmul];
    try exact I; try (subst; reflexivity).
  subst. pose proof (binary_round_aux_sign (xorb false false)
                       (Z.pos (mx * my)) (ex + ey) loc_Exact) as H.
  destruct (binary_round_aux _ _ _ _ _ _); (exact I || exact H).
Qed.

Lemma SFdiv_not_negative (x y : spec_float) :
  SFltb x (S754_zero false) = false -> SFltb (S754_zero false) y = true ->
  SFltb (SFdiv prec emax x y) (S754_zero false) = false.
Proof.
  rewrite !not_negative_cases. intros Hx Hy.
  destruct y as [sy|sy| |sy my ey]; try discriminate; destruct sy; try discriminate;
  destruct x as [sx|sx| |sx mx ex]; cbn [SFdiv]; try exact I; try (subst; reflexivity).
  subst. cbn [xorb].
  destruct (SFdiv_core_binary prec emax (Z.pos mx) ex (Z.pos my) ey) as [[mz ez] lz].
  pose proof (binary_round_aux_sign false mz ez lz) as H.
  destruct (binary_round_aux _ _ _ _ _ _); (exact I || exact H).
Qed.

Lemma mul_not_negative (x y : float) :
  (x <? 0) = false -> (y <? 0) = false -> (x * y <? 0) = false.
Proof.
  rewrite !ltb_spec, mul_spec. change (Prim2SF 0) with (S754_zero false).
  apply SFmul_not_negative.
Qed.

Lemma div_not_negative (x y : float) :
  (x <? 0) = false -> (0 <? y) = true -> (x / y <? 0) = false.
Proof.
  rewrite !ltb_spec, div_spec. change (Prim2SF 0) with (S754_zero false).
  apply SFdiv_not_negative.
Qed.

Lemma div_nan_l (x y : float) : is_nan x = true -> is_nan (x / y) = true.
Proof.
  intros H. destruct (is_nan (x / y)) eqn:E; [reflexivity|].
  apply Prim2SF_number in E. rewrite div_spec, (Prim2SF_nan x H) in E.
  contradiction.
Qed.


Lemma leb_refl_number (x : float) : is_nan x = false -> (x <=? x) = true.
Proof. intros H. rewrite leb_key by assumption. apply Z.leb_refl. Qed.

(** ** Candidates of the economic model *)

(** X1. The rate delta that [calculateBuildingROI] gives is never
    negative. *)
Theorem building_rate_delta_not_negative (b : Building.t) (c : Candidate.t) :
  EconomicModel.calculateBuildingROI b = Some c ->
  (Candidate.deltaCPS c <? 0) = false.
Proof.
  unfold EconomicModel.calculateBuildingROI.
  destruct (Building.cost b <=? 0); [discriminate|].
  destruct (Building.baseCPS b <? 0) eqn:Ebase; [discriminate|].
  cbn [orb]. intros E. injection E as <-. cbn [Candidate.deltaCPS].
  apply mul_not_negative; [exact Ebase|].
  destruct (0 <? Building.owned b); cbn [andb]; [|reflexivity].
  destruct (0 <? Building.totalCPS b) eqn:Etotal; [|reflexivity].
  destruct (0 <? Building.baseCPS b * Building.owned b) eqn:Eprod; [|reflexivity].
  apply div_not_negative; [|exact Eprod].
  apply not_ltb_of_nonnegative.
  pose proof (is_nan_false_of_ltb_r _ _ Etotal) as Hn.
  rewrite ltb_key in Etotal by (assumption || reflexivity).
  rewrite leb_key by (assumption || reflexivity).
  apply Z.ltb_lt in Etotal. apply Z.leb_le. lia.
Qed.

Lemma building_rate_delta_not_negative_witness :
  exists c, EconomicModel.calculateBuildingROI Examples.grandmas = Some c /\
            (Candidate.deltaCPS c <? 0) = false.
Proof.
  eexists. split; [reflexivity|].
  apply (building_rate_delta_not_negative Examples.grandmas). reflexivity.
Defined.

(** X2. The payback time of a candidate of the economic model is either
    the sentinel [+Infinity] or the finite quotient of its cost by its rate
    delta, and in the second case the cost is positive and the rate delta is
    at least the minimum meaningful one. *)
Theorem candidate_payback_formula (gameState : GameState) (c : Candidate.t) :
  In c (EconomicModel.getAllCandidates gameState) ->
  Candidate.roiTime c = infinity \/
  (is_finite (Candidate.roiTime c) = true /\
   Candidate.roiTime c = Candidate.cost c / Candidate.deltaCPS c /\
   (0 <? Candidate.cost c) = true /\
   (Constants.MIN_VALID_DELTA_CPS <=? Candidate.deltaCPS c) = true).
Proof.
  intros Hc. apply getAllCandidates_inv in Hc as (_ & Hcost & Hroi).
  rewrite Hroi. unfold EconomicModel._calculateROITime.
  destruct (Candidate.deltaCPS c <? Constants.MIN_VALID_DELTA_CPS) eqn:Emin;
    [left; reflexivity|].
  destruct (is_finite (Candidate.cost c / Candidate.deltaCPS c)) eqn:Ef;
    cbn [negb orb]; [|left; reflexivity].
  destruct (Candidate.cost c / Candidate.deltaCPS c <? 0) eqn:Eneg; [left; reflexivity|].
  right. split; [exact Ef|]. split; [reflexivity|].
  assert (Hfin : is_finite (EconomicModel._calculateROITime
                              (Candidate.cost c) (Candidate.deltaCPS c)) = true).
  { unfold EconomicModel._calculateROITime. rewrite Emin, Ef, Eneg. exact Ef. }
  apply finite_payback_inv in Hfin as (_ & Hmin & _).
  split; [|exact Hmin].
  apply positive_of_not_leb; [|exact Hcost].
  destruct (is_nan (Candidate.cost c)) eqn:En; [|reflexivity].
  apply is_finite_not_nan in Ef.
  rewrite (div_nan_l _ (Candidate.deltaCPS c) En) in Ef. discriminate.
Qed.

Lemma candidate_payback_formula_witness :
  Candidate.roiTime (Examples.candidate "Cursor" 150 0.1) = infinity \/
  (is_finite 150 = true /\ 150 = 15 / 0.1 /\ (0 <? 15) = true /\
   (Constants.MIN_VALID_DELTA_CPS <=? 0.1) = true).
Proof.
  exact (candidate_payback_formula Examples.idleState
           {| Candidate.id := "Cursor"; Candidate.type := building;
              Candidate.name := "Cursor"; Candidate.cost := 15;
              Candidate.deltaCPS := 0.1; Candidate.roiTime := 150;
              Candidate.currentOwned := Some 0 |} (or_introl eq_refl)).
Defined.

(** ** Sorting what is sorted *)

Section SortFixed.
Context {A : Type}.
Variables (f : A -> A -> float) (P : A -> Prop).
Hypothesis antisym : forall x y, P x -> P y -> (0 <? f x y) = true -> (0 <? f y x) = false.






End SortFixed.



Lemma filter_filter {A} (p q : A -> bool) (l : list A) :
  filter q (filter p l) = filter (fun x => p x && q x) l.
Proof.
  induction l as [|x l IH]; cbn [filter]; [reflexivity|].
  destruct (p x); cbn [filter andb]; [destruct (q x)|]; rewrite IH; reflexivity.
Qed.

Lemma filter_all {A} (p : A -> bool) (l : list A) :
  (forall x, In x l -> p x = true) -> filter p l = l.
Proof. intros H. apply forallb_filter_id, forallb_forall, H. Qed.

Lemma Permutation_filter' {A} (p : A -> bool) (l l' : list A) :
  Permutation l l' -> Permutation (filter p l) (filter p l').
Proof.
  induction 1 as [|x l l' H IH|x y l|l l' l'' H1 IH1 H2 IH2]; cbn [filter].
  - constructor.
  - destruct (p x); [constructor|]; exact IH.
  - destruct (p x), (p y); try apply Permutation_refl. apply perm_swap.
  - exact (Permutation_trans IH1 IH2).
Qed.

Lemma greedy_kept_eq (l : list Candidate.t) :
  filter Spec.validStructure (filter Spec.belowCeiling (filter Spec.validPayback l))
  = filter Ranking.admissible l.
Proof.
  rewrite !filter_filter. apply filter_ext. intros c.
  unfold Ranking.admissible. apply andb_assoc.
Qed.

Lemma relaxed_kept_eq (l : list Candidate.t) :
  filter Spec.validStructure (filter Spec.validPayback l) = filter Ranking.presentable l.
Proof. rewrite filter_filter. reflexivity. Qed.

Lemma admissible_number (c : Candidate.t) :
  Ranking.admissible c = true -> is_nan (Candidate.roiTime c) = false.
Proof.
  unfold Ranking.admissible. intros H. apply andb_prop in H as [H _].
  apply andb_prop in H as [H _]. apply validPayback_inv in H as (_ & Hn & _). exact Hn.
Qed.

Lemma presentable_number (c : Candidate.t) :
  Ranking.presentable c = true -> is_nan (Candidate.roiTime c) = false.
Proof.
  unfold Ranking.presentable. intros H. apply andb_prop in H as [H _].
  apply validPayback_inv in H as (_ & Hn & _). exact Hn.
Qed.

Lemma greedy_evaluate_admissible (l : list Candidate.t) :
  GreedyStrategy.evaluate l
  = Js.Ok (JsArray.sort GreedyStrategy.comparefn (filter Ranking.admissible l)).
Proof. rewrite GreedyStrategy_evaluate_eq, greedy_kept_eq. reflexivity. Qed.

Lemma relaxed_evaluate_presentable (l : list Candidate.t) :
  RelaxedStrategy.evaluate l
  = Js.Ok (JsArray.sort RelaxedStrategy.comparefn (filter Ranking.presentable l)).
Proof. rewrite RelaxedStrategy_evaluate_eq, relaxed_kept_eq. reflexivity. Qed.

(** ** More on the policies *)

(** X3. The Greedy policy neither drops an admissible candidate nor adds
    or repeats one: its ranking is a rearrangement of the candidates that
    pass its three filters.  Hence the ranking is empty exactly when no
    candidate passes them. *)
Theorem greedy_ranks_the_admissible (candidates : list Candidate.t) :
  exists ranked,
    GreedyStrategy.evaluate candidates = Js.Ok ranked /\
    Permutation ranked (filter Ranking.admissible candidates) /\
    (ranked = [] <-> forall c, In c candidates -> Ranking.admissible c = false).
Proof.
  rewrite greedy_evaluate_admissible. eexists. split; [reflexivity|].
  split; [apply sort_Permutation|].
  split.
  - intros E c Hc. destruct (Ranking.admissible c) eqn:Ea; [|reflexivity].
    assert (Hin : In c (JsArray.sort GreedyStrategy.comparefn
                          (filter Ranking.admissible candidates)))
      by (apply sort_In, filter_In; split; assumption).
    rewrite E in Hin. contradiction.
  - intros H.
    assert (E : filter Ranking.admissible candidates = []).
    { induction candidates as [|x l IH]; [reflexivity|]. cbn [filter].
      rewrite (H x (or_introl eq_refl)). apply IH. intros c Hc. apply H. right. exact Hc. }
    rewrite E. reflexivity.
Qed.



Lemma sorted_head_first (top : Candidate.t) (others l : list Candidate.t) :
  Forall (fun c => is_nan (Candidate.roiTime c) = false) l ->
  Permutation (top :: others) l ->
  StronglySorted Spec.paybackAscending (top :: others) ->
  Ranking.paysBackFirst top l.
Proof.
  intros Hl Hp Hs. unfold Ranking.paysBackFirst.
  apply (Permutation_Forall Hp).
  apply StronglySorted_inv in Hs as [_ Hs].
  constructor; [|exact Hs].
  apply leb_refl_number.
  apply (proj1 (Forall_forall _ _) Hl). apply (Permutation_in _ Hp). left. reflexivity.
Qed.

Lemma admissible_numbers (l : list Candidate.t) :
  Forall (fun c => is_nan (Candidate.roiTime c) = false) (filter Ranking.admissible l).
Proof.
  apply Forall_forall. intros c Hc. apply filter_In in Hc as [_ Hc].
  apply admissible_number, Hc.
Qed.

Lemma presentable_numbers (l : list Candidate.t) :
  Forall (fun c => is_nan (Candidate.roiTime c) = false) (filter Ranking.presentable l).
Proof.
  apply Forall_forall. intros c Hc. apply filter_In in Hc as [_ Hc].
  apply presentable_number, Hc.
Qed.

(** X5. The first candidate of a Greedy ranking is an admissible candidate
    of the sequence, and no admissible candidate of the sequence pays back
    sooner. *)
Theorem greedy_top_pays_back_first
  (candidates : list Candidate.t) (top : Candidate.t) (others : list Candidate.t) :
  GreedyStrategy.evaluate candidates = Js.Ok (top :: others) ->
  In top candidates /\ Ranking.admissible top = true /\
  Ranking.paysBackFirst top (filter Ranking.admissible candidates).
Proof.
  rewrite greedy_evaluate_admissible. intros E. injection E as E.
  pose proof (sort_Permutation GreedyStrategy.comparefn
                (filter Ranking.admissible candidates)) as Hp.
  pose proof (greedy_sorted_by_payback _ (admissible_numbers candidates)) as Hs.
  rewrite E in Hp, Hs.
  assert (Hin : In top (filter Ranking.admissible candidates))
    by (apply (Permutation_in _ Hp); left; reflexivity).
  apply filter_In in Hin as [Hin Ha].
  split; [exact Hin|]. split; [exact Ha|].
  apply (sorted_head_first top others); [apply admissible_numbers|exact Hp|exact Hs].
Qed.

Lemma greedy_top_pays_back_first_witness :
  Ranking.paysBackFirst (Examples.candidate "Cursor" 150 1)
    (filter Ranking.admissible
       [Examples.candidate "Farm" 200 1; Examples.candidate "Cursor" 150 1]).
Proof.
  apply (greedy_top_pays_back_first
           [Examples.candidate "Farm" 200 1; Examples.candidate "Cursor" 150 1]
           (Examples.candidate "Cursor" 150 1) [Examples.candidate "Farm" 200 1]).
  reflexivity.
Defined.

(** X6. The Greedy ranking is the Relaxed ranking cut at the ceiling, up to
    the order of the candidates: a candidate is ranked by the Greedy policy
    as often as it is by the Relaxed policy with a payback time of at most
    [MAX_REASONABLE_ROI].  When the Greedy ranking is not empty, neither is
    the Relaxed one, and its first candidate pays back no later. *)
Theorem greedy_is_relaxed_below_ceiling (candidates : list Candidate.t) :
  exists greedy relaxed,
    GreedyStrategy.evaluate candidates = Js.Ok greedy /\
    RelaxedStrategy.evaluate candidates = Js.Ok relaxed /\
    Permutation greedy (filter Spec.belowCeiling relaxed) /\
    (forall top others, greedy = top :: others ->
       exists top' others',
         relaxed = top' :: others' /\
         (Candidate.roiTime top' <=? Candidate.roiTime top) = true).
Proof.
  rewrite greedy_evaluate_admissible, relaxed_evaluate_presentable.
  do 2 eexists. split; [reflexivity|]. split; [reflexivity|].
  assert (Hperm : Permutation
            (JsArray.sort GreedyStrategy.comparefn (filter Ranking.admissible candidates))
            (filter Spec.belowCeiling
               (JsArray.sort RelaxedStrategy.comparefn
                  (filter Ranking.presentable candidates)))).
  { apply Permutation_trans with (filter Ranking.admissible candidates);
      [apply sort_Permutation|].
    apply Permutation_trans
      with (filter Spec.belowCeiling (filter Ranking.presentable candidates)).
    - rewrite filter_filter.
      erewrite filter_ext; [apply Permutation_refl|].
      intros c. unfold Ranking.admissible, Ranking.presentable.
      destruct (Spec.validPayback c), (Spec.belowCeiling c), (Spec.validStructure c);
        reflexivity.
    - apply Permutation_filter', Permutation_sym, sort_Permutation. }
  split; [exact Hperm|].
  intros top others E.
  pose proof (sort_Permutation RelaxedStrategy.comparefn
                (filter Ranking.presentable candidates)) as Hp.
  pose proof (relaxed_sorted_by_payback _ (presentable_numbers candidates)) as Hs.
  assert (Hin : In top (JsArray.sort RelaxedStrategy.comparefn
                          (filter Ranking.presentable candidates))).
  { assert (H : In top (filter Spec.belowCeiling
                          (JsArray.sort RelaxedStrategy.comparefn
                             (filter Ranking.presentable candidates))))
      by (apply (Permutation_in _ Hperm); rewrite E; left; reflexivity).
    apply filter_In in H. apply H. }
  destruct (JsArray.sort RelaxedStrategy.comparefn (filter Ranking.presentable candidates))
    as [|top' others']; [contradiction|].
  exists top', others'. split; [reflexivity|].
  pose proof (sorted_head_first top' others' _ (presentable_numbers candidates) Hp Hs) as Hfirst.
  apply (proj1 (Forall_forall _ _) Hfirst).
  apply (Permutation_in _ Hp). exact Hin.
Qed.

(** X7. On the candidates of the economic model the Greedy policy ranks
    exactly the candidates that [getValidCandidates] returns: the structural
    filter drops none of them. *)
Theorem greedy_ranks_the_valid_candidates (gameState : GameState) :
  exists valid ranked,
    CandidateQueries.getValidCandidates gameState = Js.Ok valid /\
    GreedyStrategy.evaluate (EconomicModel.getAllCandidates gameState) = Js.Ok ranked /\
    Permutation ranked valid.
Proof.
  unfold CandidateQueries.getValidCandidates.
  rewrite (filter_Ok _ (fun c => Spec.validPayback c && Spec.belowCeiling c))
    by (intros c _; rewrite isValidROI_Num; reflexivity).
  rewrite greedy_evaluate_admissible.
  do 2 eexists. split; [reflexivity|]. split; [reflexivity|].
  apply Permutation_trans
    with (filter Ranking.admissible (EconomicModel.getAllCandidates gameState));
    [apply sort_Permutation|].
  assert (E : forall l, (forall c, In c l -> Spec.validStructure c = true) ->
                        filter Ranking.admissible l
                        = filter (fun c => Spec.validPayback c && Spec.belowCeiling c) l).
  { intros l H. induction l as [|x l IH]; [reflexivity|]. cbn [filter].
    unfold Ranking.admissible at 1. rewrite (H x (or_introl eq_refl)), andb_true_r.
    rewrite IH by (intros c Hc; apply H; right; exact Hc). reflexivity. }
  rewrite E; [apply Permutation_refl|].
  intros c Hc. apply getAllCandidates_inv in Hc as (_ & Hcost & _).
  unfold Spec.validStructure. rewrite Hcost. reflexivity.
Qed.

(** ** The engine over several calls *)

Lemma recommend_greedy (candidates : list Candidate.t) :
  StrategyEngine.recommend {| StrategyEngine.strategy := StrategyEngine.newGreedyStrategy |}
                           candidates
  = (GreedyStrategy.evaluate candidates,
     {| StrategyEngine.strategy := StrategyEngine.newGreedyStrategy |}).
Proof.
  unfold StrategyEngine.recommend. cbn [StrategyEngine.strategy StrategyEngine.newGreedyStrategy
                                        StrategyEngine.evaluate].
  rewrite greedy_evaluate_admissible. reflexivity.
Qed.

Lemma recommend_after_failure (engine : StrategyEngine.t) (candidates : list Candidate.t) :
  Spec.failed (fst (StrategyEngine.evaluate (StrategyEngine.strategy engine) candidates)) ->
  StrategyEngine.instanceofGreedy (StrategyEngine.strategy engine) = false ->
  StrategyEngine.recommend engine candidates
  = (GreedyStrategy.evaluate
       (snd (StrategyEngine.evaluate (StrategyEngine.strategy engine) candidates)),
     {| StrategyEngine.strategy := StrategyEngine.newGreedyStrategy |}).
Proof.
  unfold StrategyEngine.recommend.
  destruct (StrategyEngine.evaluate (StrategyEngine.strategy engine) candidates)
    as [[[recommendations|]|e] left]; cbn [fst snd Spec.failed Js.bind];
    intros Hf Hg; try contradiction; rewrite Hg; reflexivity.
Qed.

(** X8. Once a policy that is not the Greedy policy has failed, the engine
    never consults it again: [recommend] answers every later call with the
    Greedy ranking, and the engine does not change any more. *)
Theorem failed_policy_is_replaced_for_good
  (engine : StrategyEngine.t) (candidates later : list Candidate.t) :
  Spec.failed (fst (StrategyEngine.evaluate (StrategyEngine.strategy engine) candidates)) ->
  StrategyEngine.instanceofGreedy (StrategyEngine.strategy engine) = false ->
  StrategyEngine.recommend (snd (StrategyEngine.recommend engine candidates)) later
  = (GreedyStrategy.evaluate later, snd (StrategyEngine.recommend engine candidates)).
Proof.
  intros Hf Hg. rewrite (recommend_after_failure engine candidates Hf Hg). cbn [snd].
  apply recommend_greedy.
Qed.

Lemma failed_policy_is_replaced_for_good_witness :
  fst (StrategyEngine.recommend
         (snd (StrategyEngine.recommend
                 {| StrategyEngine.strategy := Examples.brokenStrategy |} []))
         [Examples.candidate "Farm" 200 1; Examples.candidate "Cursor" 150 1])
  = Js.Ok [Examples.candidate "Cursor" 150 1; Examples.candidate "Farm" 200 1].
Proof.
  rewrite (failed_policy_is_replaced_for_good
             {| StrategyEngine.strategy := Examples.brokenStrategy |} []
             [Examples.candidate "Farm" 200 1; Examples.candidate "Cursor" 150 1] I eq_refl).
  reflexivity.
Defined.

(** ** The best of a ranking *)

Lemma skipn_In {A} (n : nat) (l : list A) (x : A) : In x (skipn n l) -> In x l.
Proof.
  revert l. induction n as [|n IH]; intros l H; [exact H|].
  destruct l as [|y l]; [contradiction|]. right. apply IH, H.
Qed.

Lemma StronglySorted_firstn_skipn {A} (R : A -> A -> Prop) (n : nat) (l : list A) :
  StronglySorted R l ->
  forall a b, In a (firstn n l) -> In b (skipn n l) -> R a b.
Proof.
  intros S. revert n. induction S as [|x l S IH Hx]; intros n a b Ha Hb.
  - destruct n; contradiction.
  - destruct n as [|n]; [contradiction|]. cbn [firstn skipn] in Ha, Hb.
    destruct Ha as [<-|Ha].
    + apply (proj1 (Forall_forall _ _) Hx). apply (skipn_In n l b Hb).
    + apply (IH n); assumption.
Qed.

(** X10. The top [count] recommendations of an engine whose policy is the
    Greedy policy are at most [count] candidates, the first of the Greedy
    ranking in its order, and each of them pays back no later than every
    candidate of the ranking that is left out. *)
Theorem top_recommendations_are_the_best (candidates : list Candidate.t) (count : nat) :
  exists ranked,
    GreedyStrategy.evaluate candidates = Js.Ok ranked /\
    fst (StrategyEngine.getTopRecommendations
           {| StrategyEngine.strategy := StrategyEngine.newGreedyStrategy |} candidates count)
    = Js.Ok (firstn count ranked) /\
    (List.length (firstn count ranked) <= count)%nat /\
    (forall a b, In a (firstn count ranked) -> In b (skipn count ranked) ->
                 (Candidate.roiTime a <=? Candidate.roiTime b) = true).
Proof.
  unfold StrategyEngine.getTopRecommendations. rewrite recommend_greedy.
  rewrite greedy_evaluate_admissible. eexists. split; [reflexivity|].
  split; [reflexivity|]. split; [apply firstn_le_length|].
  apply StronglySorted_firstn_skipn.
  apply greedy_sorted_by_payback, admissible_numbers.
Qed.

(** ** The queries on the candidates *)

Lemma calculateBuildingROI_inv (b : Building.t) (c : Candidate.t) :
  EconomicModel.calculateBuildingROI b = Some c ->
  Candidate.id c = Building.id b /\ Candidate.type c = building /\
  Candidate.cost c = Building.cost b /\ (Building.cost b <=? 0) = false.
Proof.
  unfold EconomicModel.calculateBuildingROI.
  destruct (Building.cost b <=? 0); [discriminate|].
  destruct (Building.baseCPS b <? 0); [discriminate|].
  cbn [orb]. intros E. injection E as <-. cbn. auto.
Qed.

Lemma calculateUpgradeROI_inv (gameState : GameState) (u : Upgrade.t) (c : Candidate.t) :
  EconomicModel.calculateUpgradeROI gameState u = Some c ->
  Candidate.id c = Upgrade.id u /\ Candidate.type c = upgrade /\
  Candidate.cost c = Upgrade.cost u /\ (Upgrade.cost u <=? 0) = false.
Proof.
  unfold EconomicModel.calculateUpgradeROI.
  destruct (Upgrade.cost u <=? 0); [discriminate|].
  intros E. injection E as <-. cbn. auto.
Qed.

Lemma filter_none {A} (p : A -> bool) (l : list A) :
  (forall x, In x l -> p x = false) -> filter p l = [].
Proof.
  induction l as [|x l IH]; intros H; [reflexivity|]. cbn [filter].
  rewrite (H x (or_introl eq_refl)). apply IH. intros y Hy. apply H. right. exact Hy.
Qed.

(** X11. [getCandidatesByType] splits the candidates in two: those of type
    ['building'] followed by those of type ['upgrade'] are all the
    candidates, in the order of [getAllCandidates]; for every other value of
    [type] the result is empty. *)
Theorem candidates_by_type_partition (gameState : GameState) :
  CandidateQueries.getCandidatesByType gameState (Js.Str "building")
  ++ CandidateQueries.getCandidatesByType gameState (Js.Str "upgrade")
  = EconomicModel.getAllCandidates gameState /\
  (forall type, type <> Js.Str "building" -> type <> Js.Str "upgrade" ->
                CandidateQueries.getCandidatesByType gameState type = []).
Proof.
  unfold CandidateQueries.getCandidatesByType, EconomicModel.getAllCandidates.
  assert (Hb : forall c, In c (EconomicModel.pushAll EconomicModel.calculateBuildingROI
                                 (buildings gameState)) -> Candidate.type c = building).
  { intros c Hc. apply pushAll_In in Hc as (b & _ & E).
    apply calculateBuildingROI_inv in E. apply E. }
  assert (Hu : forall c, In c (EconomicModel.pushAll
                                 (EconomicModel.calculateUpgradeROI gameState)
                                 (upgrades gameState)) -> Candidate.type c = upgrade).
  { intros c Hc. apply pushAll_In in Hc as (u & _ & E).
    apply calculateUpgradeROI_inv in E. apply E. }
  split.
  - rewrite !filter_app.
    rewrite (filter_all _ _ (fun c Hc => f_equal (fun t => Js.isString (Js.Str "building")
                                                   (CandidateQueries.typeName t)) (Hb c Hc))).
    rewrite (filter_none _ _ (fun c Hc => f_equal (fun t => Js.isString (Js.Str "building")
                                                    (CandidateQueries.typeName t)) (Hu c Hc))).
    rewrite (filter_none _ _ (fun c Hc => f_equal (fun t => Js.isString (Js.Str "upgrade")
                                                    (CandidateQueries.typeName t)) (Hb c Hc))).
    rewrite (filter_all _ _ (fun c Hc => f_equal (fun t => Js.isString (Js.Str "upgrade")
                                                   (CandidateQueries.typeName t)) (Hu c Hc))).
    rewrite !app_nil_r. reflexivity.
  - intros type H1 H2. apply filter_none. intros c _.
    destruct type as [| |b|n|s|k props]; try reflexivity. cbn [Js.isString].
    destruct (Candidate.type c); cbn [CandidateQueries.typeName];
      apply String.eqb_neq; intros ->; [apply H1|apply H2]; reflexivity.
Qed.

Lemma find_pushAll_skip {A} (f : A -> option Candidate.t) (p : Candidate.t -> bool)
      (l : list A) (rest : list Candidate.t) :
  (forall x c, In x l -> f x = Some c -> p c = false) ->
  List.find p (EconomicModel.pushAll f l ++ rest) = List.find p rest.
Proof.
  induction l as [|x l IH]; intros H; cbn [EconomicModel.pushAll app]; [reflexivity|].
  destruct (f x) as [c|] eqn:E.
  - cbn [app List.find]. rewrite (H x c (or_introl eq_refl) E).
    apply IH. intros y d Hy. apply H. right. exact Hy.
  - apply IH. intros y d Hy. apply H. right. exact Hy.
Qed.

(** X12. [getCandidate] finds the ROI of a building by its id: when the
    buildings of the state have distinct ids, the query for the id of a
    building that yields a candidate returns that candidate. *)
Theorem getCandidate_of_building
  (gameState : GameState) (b : Building.t) (c : Candidate.t) :
  NoDup (map Building.id (buildings gameState)) ->
  In b (buildings gameState) ->
  EconomicModel.calculateBuildingROI b = Some c ->
  CandidateQueries.getCandidate gameState (Js.Str (Building.id b)) = Some c.
Proof.
  unfold CandidateQueries.getCandidate, CandidateQueries.find, EconomicModel.getAllCandidates.
  generalize (EconomicModel.pushAll (EconomicModel.calculateUpgradeROI gameState)
                (upgrades gameState)) as rest.
  induction (buildings gameState) as [|x l IH]; intros rest Hnd Hin Hc; [contradiction|].
  cbn [map] in Hnd. apply NoDup_cons_iff in Hnd as [Hx Hnd].
  cbn [EconomicModel.pushAll]. destruct Hin as [->|Hin].
  - rewrite Hc. cbn [app List.find Js.isString].
    apply calculateBuildingROI_inv in Hc as (-> & _). rewrite String.eqb_refl. reflexivity.
  - destruct (EconomicModel.calculateBuildingROI x) as [d|] eqn:Ed.
    + cbn [app List.find Js.isString].
      apply calculateBuildingROI_inv in Ed as (Eid & _). rewrite Eid.
      destruct (String.eqb_spec (Building.id b) (Building.id x)) as [E|_].
      * exfalso. apply Hx. rewrite <- E. apply in_map. exact Hin.
      * apply IH; assumption.
    + apply IH; assumption.
Qed.

Lemma getCandidate_of_building_witness :
  CandidateQueries.getCandidate
    {| cookies := 0; cookiesPerSecond := 6; buildings := [Examples.grandmas]; upgrades := [] |}
    (Js.Str "Grandma")
  = EconomicModel.calculateBuildingROI Examples.grandmas.
Proof.
  apply (getCandidate_of_building
           {| cookies := 0; cookiesPerSecond := 6; buildings := [Examples.grandmas];
              upgrades := [] |} Examples.grandmas).
  - repeat constructor. intros [].
  - left. reflexivity.
  - reflexivity.
Defined.

(** X13. [getCandidate] returns [null] for an id that no candidate has, and
    otherwise the first candidate of that id; it returns [null] for every id
    that is not a string. *)
Theorem getCandidate_finds_the_first (gameState : GameState) (id : Js.value) :
  match CandidateQueries.getCandidate gameState id with
  | Some c =>
      id = Js.Str (Candidate.id c) /\
      exists before after,
        EconomicModel.getAllCandidates gameState = before ++ c :: after /\
        forall d, In d before -> id <> Js.Str (Candidate.id d)
  | None =>
      forall c, In c (EconomicModel.getAllCandidates gameState) ->
                id <> Js.Str (Candidate.id c)
  end.
Proof.
  unfold CandidateQueries.getCandidate, CandidateQueries.find.
  assert (Hiff : forall c, Js.isString id (Candidate.id c) = true <->
                           id = Js.Str (Candidate.id c)).
  { intros c. destruct id as [| |b|n|s|k props]; cbn [Js.isString];
      try (split; intros H; discriminate).
    split; [intros H; apply String.eqb_eq in H; rewrite H; reflexivity|].
    intros H. injection H as ->. apply String.eqb_refl. }
  induction (EconomicModel.getAllCandidates gameState) as [|x l IH]; cbn [List.find].
  - intros c [].
  - destruct (Js.isString id (Candidate.id x)) eqn:E.
    + split; [apply Hiff, E|]. exists [], l. split; [reflexivity|]. intros d [].
    + destruct (List.find _ l) as [c|].
      * destruct IH as (Hid & before & after & -> & Hb).
        split; [exact Hid|]. exists (x :: before), after. split; [reflexivity|].
        intros d [<-|Hd]; [|apply Hb, Hd].
        intros H. apply Hiff in H. rewrite H in E. discriminate.
      * intros c [<-|Hc]; [|apply IH, Hc].
        intros H. apply Hiff in H. rewrite H in E. discriminate.
Qed.

(** X14. Every candidate that [getAffordableCandidates] returns is a
    candidate whose cost is positive and at most the cookies in hand; with
    no cookies in hand, or a count of cookies that is not a number, it
    returns none. *)
Theorem affordable_candidates (gameState : GameState) :
  exists affordable,
    CandidateQueries.getAffordableCandidates gameState = Js.Ok affordable /\
    Forall (fun c => In c (EconomicModel.getAllCandidates gameState) /\
                     (0 <? Candidate.cost c) = true /\
                     (Candidate.cost c <=? cookies gameState) = true) affordable /\
    ((0 <? cookies gameState) = false -> affordable = []).
Proof.
  unfold CandidateQueries.getAffordableCandidates.
  rewrite (filter_Ok _ (fun c => Candidate.cost c <=? cookies gameState)) by reflexivity.
  eexists. split; [reflexivity|].
  assert (H : forall c, In c (EconomicModel.getAllCandidates gameState) ->
                        (Candidate.cost c <=? cookies gameState) = true ->
                        (0 <? Candidate.cost c) = true /\ (0 <? cookies gameState) = true).
  { intros c Hc Hle. apply getAllCandidates_inv in Hc as (_ & Hcost & _).
    pose proof (is_nan_false_of_leb_l _ _ Hle) as Hn.
    pose proof (is_nan_false_of_leb_r _ _ Hle) as Hn'.
    pose proof (positive_of_not_leb _ Hn Hcost) as Hpos.
    split; [exact Hpos|].
    rewrite leb_key in Hle by assumption.
    rewrite ltb_key in Hpos by (assumption || reflexivity).
    rewrite ltb_key by (assumption || reflexivity).
    apply Z.leb_le in Hle. apply Z.ltb_lt in Hpos. apply Z.ltb_lt. lia. }
  split.
  - apply Forall_forall. intros c Hc. apply filter_In in Hc as [Hc Hle].
    split; [exact Hc|]. split; [apply (H c Hc Hle)|exact Hle].
  - intros Hzero. apply filter_none. intros c Hc.
    destruct (Candidate.cost c <=? cookies gameState) eqn:Hle; [|reflexivity].
    destruct (H c Hc Hle) as [_ Hpos]. rewrite Hpos in Hzero. discriminate.
Qed.

(** ** The building an upgrade refers to *)

Lemma length_append (p s : string) :
  String.length (p ++ s) = (String.length p + String.length s)%nat.
Proof. induction p as [|c p IH]; cbn; [reflexivity|]. rewrite IH. reflexivity. Qed.

Lemma prefix_append (p s : string) :
  JsString.prefix (String.length (p ++ s) - String.length s) (p ++ s) = p.
Proof.
  rewrite length_append. replace (_ + _ - _)%nat with (String.length p) by lia.
  induction p as [|c p IH]; cbn.
  - destruct s; reflexivity.
  - rewrite IH. reflexivity.
Qed.

(** A case-insensitive match of the literal [w] consumes a text that is
    [w] up to case. *)
Lemma run_word {R} (w s : string) (cap : option string)
      (k : string -> option string -> option R) (x : R) :
  RegExp.run true (RegExp.word w) s cap k = Some x ->
  exists p s1, s = (p ++ s1)%string /\
               JsString.toLowerCase p = JsString.toLowerCase w /\
               k s1 cap = Some x.
Proof.
  revert s. induction w as [|c w IH]; intros s H; cbn in H.
  - exists EmptyString, s. auto.
  - destruct s as [|d s]; [discriminate|].
    destruct (Ascii.eqb (JsString.lowerUnit d) (JsString.lowerUnit c)) eqn:E; [|discriminate].
    apply Ascii.eqb_eq in E.
    apply IH in H as (p & s1 & -> & Hp & Hk).
    exists (String d p), s1. cbn. rewrite E, Hp. auto.
Qed.

Lemma run_oneOf {R} (w : string) (ws : list string) (s : string) (cap : option string)
      (k : string -> option string -> option R) (x : R) :
  RegExp.run true (RegExp.oneOf w ws) s cap k = Some x ->
  exists w' p s1, In w' (w :: ws) /\ s = (p ++ s1)%string /\
                  JsString.toLowerCase p = JsString.toLowerCase w' /\
                  k s1 cap = Some x.
Proof.
  revert w. induction ws as [|w' ws IH]; intros w H; cbn [RegExp.oneOf] in H.
  - apply run_word in H as (p & s1 & H). exists w, p, s1. split; [left; reflexivity|exact H].
  - cbn [RegExp.run] in H.
    destruct (RegExp.run true (RegExp.word w) s cap k) as [y|] eqn:E.
    + injection H as ->. apply run_word in E as (p & s1 & E).
      exists w, p, s1. split; [left; reflexivity|exact E].
    + apply IH in H as (v & p & s1 & Hin & H). exists v, p, s1. split; [right; exact Hin|exact H].
Qed.

(** What [BUILDING_REFERENCE] captures is, up to case, one of the names of
    [Constants.BUILDINGS]. *)
Lemma BUILDING_REFERENCE_capture (description : string) (m : RegExp.MatchResult) :
  RegExp.exec Constants.UPGRADE_PATTERNS.BUILDING_REFERENCE description = Some m ->
  exists name, In name Constants.BUILDINGS /\
               JsString.toLowerCase (RegExp.capture m) = JsString.toLowerCase name.
Proof.
  induction description as [|c s IH]; cbn [RegExp.exec].
  - cbn. discriminate.
  - remember (String c s) as s0 eqn:Es0.
    destruct (RegExp.matchAt _ s0) as [m'|] eqn:E; [|exact IH].
    intros H. injection H as ->. clear IH Es0.
    unfold RegExp.matchAt, Constants.UPGRADE_PATTERNS.BUILDING_REFERENCE in E.
    cbn [RegExp.source RegExp.ignoreCase RegExp.run] in E.
    apply run_oneOf in E as (w & p & s1 & Hin & Hs & Hp & Hk).
    injection Hk as <-. unfold RegExp.capture. cbn [RegExp.group1].
    rewrite Hs, prefix_append, Hp.
    assert (Hall : Forall (fun w' =>
                existsb (fun name => String.eqb (JsString.toLowerCase w')
                                                (JsString.toLowerCase name))
                        Constants.BUILDINGS = true)
              ("cursor" :: ["grandma"; "farm"; "mine"; "factory"; "bank"; "temple";
                 "wizard tower"; "shipment"; "alchemy lab"; "portal";
                 "time machine"; "antimatter condenser"; "prism";
                 "chancemaker"; "fractal engine"; "javascript console";
                 "idleverse"])) by (repeat constructor).
    rewrite Forall_forall in Hall. apply Hall in Hin.
    apply existsb_exists in Hin as (name & Hname & Heq).
    exists name. split; [exact Hname|]. apply String.eqb_eq, Heq.
Qed.

(** X15. The building that [_findAffectedBuilding] returns is a building of
    the game state whose name is, up to case, one of the eighteen names of
    [Constants.BUILDINGS]: a building of any other name is never the
    building an upgrade affects. *)
Theorem affected_building_is_a_listed_building
  (gameState : GameState) (description : string) (b : Building.t) :
  EconomicModel._findAffectedBuilding gameState description = Some b ->
  In b (buildings gameState) /\
  exists name, In name Constants.BUILDINGS /\
               JsString.toLowerCase (Building.name b) = JsString.toLowerCase name.
Proof.
  unfold EconomicModel._findAffectedBuilding.
  destruct (RegExp.exec _ description) as [m|] eqn:E; [|discriminate].
  intros H. apply find_some in H as [Hin Hname]. split; [exact Hin|].
  apply String.eqb_eq in Hname. rewrite Hname.
  apply (BUILDING_REFERENCE_capture description m E).
Qed.

Lemma affected_building_is_a_listed_building_witness :
  In Examples.grandmas [Examples.grandmas] /\
  exists name, In name Constants.BUILDINGS /\
               JsString.toLowerCase (Building.name Examples.grandmas)
               = JsString.toLowerCase name.
Proof.
  apply (affected_building_is_a_listed_building
           {| cookies := 0; cookiesPerSecond := 6; buildings := [Examples.grandmas];
              upgrades := [] |}
           "grandmas are twice as efficient.").
  reflexivity.
Defined.

(** ** The adapter *)

Section AdapterFacts.
Import Js.

Lemma get_Object (k : kind) (props : list (string * value)) (p : string) :
  exists v, get (Object k props) p = Ok v.
Proof. cbn. destruct (lookup p props); eauto. Qed.

Lemma typeofIs_number (v : value) :
  typeofIs v "number" = true -> exists n, v = Num n.
Proof. destruct v as [| |b|n|s|[] props]; try discriminate. eauto. Qed.

Lemma typeofIs_string (v : value) :
  typeofIs v "string" = true -> exists s, v = Str s.
Proof. destruct v as [| |b|n|s|[] props]; try discriminate. eauto. Qed.

Lemma typeofIs_object (v : value) :
  truthy v = true -> typeofIs v "object" = true -> exists k props, v = Object k props.
Proof. destruct v as [| |b|n|s|k props]; try discriminate. eauto. Qed.

(** What a valid building is: an object with a name that is not empty,
    an amount, and a price and a rate that are numbers and not negative. *)
Lemma isValidBuilding_inv (b : value) :
  Validators.isValidBuilding b = Ok true ->
  exists k props name amount price cps,
    b = Object k props /\
    get b "name" = Ok (Str name) /\ name <> "" /\
    get b "amount" = Ok (Num amount) /\
    get b "price" = Ok (Num price) /\ (price <? 0) = false /\
    get b "cps" = Ok (Num cps) /\ (cps <? 0) = false.
Proof.
  unfold Validators.isValidBuilding.
  destruct b as [| |x|x|x|k props]; try discriminate.
  1-3: destruct (negb (truthy _)); [discriminate|cbn; discriminate].
  cbn [truthy negb].
  { 
    destruct (get_Object k props "name") as (name & ->).
    destruct (get_Object k props "amount") as (amount & ->).
    destruct (get_Object k props "price") as (price & ->).
    destruct (get_Object k props "cps") as (cps & ->).
    cbn [bind].
    destruct (typeofIs name "string") eqn:Tn; cbn [negb bind]; [|discriminate].
    apply typeofIs_string in Tn as (nm & ->).
    cbn [get]. cbn [String.eqb Ascii.eqb Bool.eqb bind number].
    destruct (ofNat (String.length nm) =? 0) eqn:En; [discriminate|].
    destruct (typeofIs amount "number") eqn:Ta; cbn [negb]; [|discriminate].
    apply typeofIs_number in Ta as (a & ->).
    destruct (typeofIs price "number") eqn:Tp; cbn [negb orb]; [|discriminate].
    apply typeofIs_number in Tp as (p & ->). cbn [number].
    destruct (p <? 0) eqn:Ep; [discriminate|].
    destruct (typeofIs cps "number") eqn:Tc; cbn [negb orb]; [|discriminate].
    apply typeofIs_number in Tc as (c & ->). cbn [number].
    destruct (c <? 0) eqn:Ec; [discriminate|].
    intros _. exists k, props, nm, a, p, c.
    repeat split; try reflexivity; try assumption.
    intros ->. vm_compute in En. discriminate. }
Qed.

Lemma new_inv (gameObject : value) (adapter : GameStateAdapter.t) :
  GameStateAdapter.new gameObject = Ok adapter ->
  GameStateAdapter.game adapter = gameObject /\
  exists k props objects,
    gameObject = Object k props /\
    get gameObject "Objects" = Ok objects /\
    exists k' props', objects = Object k' props'.
Proof.
  unfold GameStateAdapter.new, Validators.isValidGameObject.
  destruct gameObject as [| |x|x|x|k props].
  1-2: cbn; discriminate.
  1-3: destruct (negb (truthy _)); cbn; discriminate.
  cbn [truthy negb].
  destruct (get_Object k props "cookies") as (c & ->).
  destruct (get_Object k props "cookiesPs") as (cps & ->).
  destruct (get_Object k props "Objects") as (objects & ->).
  destruct (get_Object k props "UpgradesInStore") as (ups & ->).
  cbn [bind].
  destruct (negb (typeofIs c "number")); [cbn; discriminate|].
  destruct (negb (typeofIs cps "number")); [cbn; discriminate|].
  destruct (truthy objects) eqn:To; cbn [negb orb]; [|cbn; discriminate].
  destruct (typeofIs objects "object") eqn:Ty; cbn [negb]; [|cbn; discriminate].
  destruct (negb (truthy ups) || negb (isArray ups)); cbn [negb]; [discriminate|].
  intros H. injection H as <-. split; [reflexivity|].
  exists k, props, objects. split; [reflexivity|]. split; [reflexivity|].
  apply typeofIs_object; assumption.
Qed.

(** X16. Once an adapter is made for a game object, [getBuilding] never
    throws, whatever the name it is asked for.  It returns either [null] or
    a normalized building whose id is the requested name, whose name is a
    string that is not empty, and whose owned count, cost and base rate are
    numbers, the cost and the rate not negative. *)
Theorem getBuilding_contract
  (gameObject : value) (adapter : GameStateAdapter.t) (buildingName : string) :
  GameStateAdapter.new gameObject = Ok adapter ->
  GameStateAdapter.getBuilding adapter buildingName = Ok Null \/
  exists name owned cost baseCPS rest,
    GameStateAdapter.getBuilding adapter buildingName
    = Ok (Object PlainObject
            (("id", Str buildingName) :: ("name", Str name) :: ("owned", Num owned)
             :: ("cost", Num cost) :: ("baseCPS", Num baseCPS) :: rest)) /\
    name <> "" /\ (cost <? 0) = false /\ (baseCPS <? 0) = false.
Proof.
  intros Hnew. apply new_inv in Hnew as (Hgame & k & props & objects & -> & Hobj & k' & props' & ->).
  unfold GameStateAdapter.getBuilding. rewrite Hgame, Hobj. cbn [bind].
  destruct (get_Object k' props' buildingName) as (b & ->). cbn [bind].
  destruct (truthy b) eqn:Tb; cbn [negb bind]; [|left; reflexivity].
  destruct (isValidBuilding_returns b) as ([|] & Hv); rewrite Hv; cbn [bind negb];
    [|left; reflexivity].
  right.
  apply isValidBuilding_inv in Hv
    as (kb & pb & name & amount & price & cps & -> & Hn & Hne & Ha & Hp & Hp0 & Hc & Hc0).
  unfold GameStateAdapter._extractBuildingState. rewrite Hn, Ha, Hp, Hc. cbn [bind].
  destruct (get_Object kb pb "storedCps") as (s & ->).
  destruct (get_Object kb pb "unlocked") as (u & ->).
  destruct (get_Object kb pb "bought") as (bo & ->). cbn [bind].
  exists name, amount, price, cps. eexists. split; [reflexivity|]. auto.
Qed.

Lemma getBuilding_contract_witness :
  GameStateAdapter.getBuilding {| GameStateAdapter.game := SampleGame.game |} "Cursor"
  = Ok Null \/
  exists name owned cost baseCPS rest,
    GameStateAdapter.getBuilding {| GameStateAdapter.game := SampleGame.game |} "Cursor"
    = Ok (Object PlainObject
            (("id", Str "Cursor") :: ("name", Str name) :: ("owned", Num owned)
             :: ("cost", Num cost) :: ("baseCPS", Num baseCPS) :: rest)) /\
    name <> "" /\ (cost <? 0) = false /\ (baseCPS <? 0) = false.
Proof.
  apply (getBuilding_contract SampleGame.game).
  reflexivity.
Defined.

End AdapterFacts.
